(** * toarray: selection of the narrowest typed array for a sequence of values

    A shallow embedding of [toarray/iterable_to_array.py] and
    [toarray/result.py], and the properties of [select_array],
    [analyze_array], [stream_array] and [_type_sequence].

    Python values are an inductive type, Python floats are IEEE binary64
    numbers in the sense of the standard library's [SpecFloat], exceptions
    are an explicit error monad, and the generator [stream_array] is the list
    of the chunks it yields together with the exception its caller gets
    after them, if any. *)

From Stdlib Require Import ZArith List String Bool Lia.
From Stdlib Require Import SpecFloat.
Import ListNotations.

Local Open Scope string_scope.
Local Open Scope Z_scope.

(** [==] on Python strings. *)
Local Infix "==" := String.eqb (at level 70, no associativity).

(** ** Exceptions and the error monad *)

Module Py.

(** The Python objects an input sequence is made of. [VBool] is a subclass of
    [int]; [VComplex] is a [numbers.Number] that is not a real number;
    [VStr] and [VNone] stand for the objects that are not numbers. *)
Inductive value : Type :=
| VInt (n : Z)
| VBool (b : bool)
| VFloat (x : spec_float)
| VComplex (re im : spec_float)
| VStr (s : string)
| VNone.

(** [result.py]: [SelectionError(index, value, expected)], next to the
    built-in exceptions the code meets. [RuntimeError] is what the caller of
    a generator sees when a [StopIteration] leaves the generator's body. *)
Inductive exn : Type :=
| OverflowError
| TypeError
| ValueError
| StopIteration
| IndexError
| RuntimeError
| SelectionError (index : nat) (value : value) (expected : string).

Inductive result (A : Type) : Type :=
| Ret (a : A)
| Raise (e : exn).

Arguments Ret {A} a.
Arguments Raise {A} e.

Definition bind {A B : Type} (m : result A) (k : A -> result B) : result B :=
  match m with
  | Ret a => k a
  | Raise e => Raise e
  end.

End Py.
Export Py.

Declare Scope py_scope.
Notation "x <- m ;; k" := (bind m (fun x => k))
  (at level 61, m at next level, right associativity) : py_scope.
Local Open Scope py_scope.

(** A list comprehension whose body may raise: the first exception, in
    iteration order, ends it. *)
Fixpoint mapM {A B : Type} (f : A -> result B) (l : list A) : result (list B) :=
  match l with
  | [] => Ret []
  | a :: l' => b <- f a ;; bs <- mapM f l' ;; Ret (b :: bs)
  end.

(** ** Floats *)

Module F64.

Definition prec : Z := 53.
Definition emax : Z := 1024.

(** The double nearest to the integer [n]. *)
Definition of_Z (n : Z) : spec_float := binary_normalize prec emax n 0 false.

(** C's [(float) x]: the nearest binary32 number, ties to even; an infinity
    beyond the finite range of the format. *)
Definition to_f32 (x : spec_float) : spec_float :=
  match x with
  | S754_finite s m e => binary_normalize 24 128 (cond_Zopp s (Zpos m)) e s
  | _ => x
  end.

(** C's [(double) y] on a binary32 number: the same number with the mantissa
    of a double. *)
Definition of_f32 (y : spec_float) : spec_float :=
  match y with
  | S754_finite s m e => binary_normalize prec emax (cond_Zopp s (Zpos m)) e s
  | _ => y
  end.

(** What writing a double into an ['f'] array and reading it back gives. *)
Definition round_f32 (x : spec_float) : spec_float := of_f32 (to_f32 x).

(** [a > b] and [a < b] on Python floats. *)
Definition gt (a b : spec_float) : bool := SFltb b a.

Definition lt (a b : spec_float) : bool := SFltb a b.

End F64.

(** ** The built-ins the module calls *)

(** [isinstance(x, Number)] *)
Definition isinstance_Number (x : value) : bool :=
  match x with
  | VInt _ | VBool _ | VFloat _ | VComplex _ _ => true
  | VStr _ | VNone => false
  end.

(** [isinstance(v, float)] *)
Definition isinstance_float (v : value) : bool :=
  match v with
  | VFloat _ => true
  | _ => false
  end.

(** [int.__float__]: the nearest double, [OverflowError] when it is not
    finite. *)
Definition int_to_float (n : Z) : result spec_float :=
  match F64.of_Z n with
  | S754_infinity _ => Raise OverflowError
  | x => Ret x
  end.

(** [float(v)], on the numbers ([select_array] calls it on nothing else). *)
Definition py_float (v : value) : result spec_float :=
  match v with
  | VInt n => int_to_float n
  | VBool b => int_to_float (Z.b2z b)
  | VFloat x => Ret x
  | VComplex _ _ => Raise TypeError
  | VStr _ => Raise ValueError
  | VNone => Raise TypeError
  end.

(** [PyFloat_AsDouble], which the float type codes of [array] use. *)
Definition as_double (v : value) : result spec_float :=
  match v with
  | VInt n => int_to_float n
  | VBool b => int_to_float (Z.b2z b)
  | VFloat x => Ret x
  | VComplex _ _ | VStr _ | VNone => Raise TypeError
  end.

(** [min(values)] and [max(values)] on a list of floats: the first item is
    kept until a later one compares strictly smaller (greater). *)
Definition py_min (values : list spec_float) : option spec_float :=
  match values with
  | [] => None
  | v :: rest =>
      Some (fold_left (fun cur item => if F64.lt item cur then item else cur) rest v)
  end.

Definition py_max (values : list spec_float) : option spec_float :=
  match values with
  | [] => None
  | v :: rest =>
      Some (fold_left (fun cur item => if F64.gt item cur then item else cur) rest v)
  end.

(** ** The [array] module, for the ten type codes of the catalog *)

(** The inclusive range of an integer type code. *)
Definition int_range (type_code : string) : option (Z * Z) :=
  if type_code == "b" then Some (-128, 127)
  else if type_code == "B" then Some (0, 255)
  else if type_code == "h" then Some (-32768, 32767)
  else if type_code == "H" then Some (0, 65535)
  else if type_code == "i" then Some (-2147483648, 2147483647)
  else if type_code == "I" then Some (0, 4294967295)
  else if type_code == "q" then Some (-9223372036854775808, 9223372036854775807)
  else if type_code == "Q" then Some (0, 18446744073709551615)
  else None.

(** Storing one item and reading it back. *)
Definition array_item (type_code : string) (v : value) : result value :=
  match int_range type_code with
  | Some (lo, hi) =>
      match v with
      | VInt n => if (lo <=? n) && (n <=? hi) then Ret (VInt n) else Raise OverflowError
      | VBool b => Ret (VInt (Z.b2z b))
      | _ => Raise TypeError
      end
  | None =>
      if type_code == "f" then x <- as_double v ;; Ret (VFloat (F64.round_f32 x))
      else if type_code == "d" then x <- as_double v ;; Ret (VFloat x)
      else Raise ValueError
  end.

Definition known_typecode (type_code : string) : bool :=
  match int_range type_code with
  | Some _ => true
  | None => (type_code == "f") || (type_code == "d")
  end.

(** [array(type_code, values)]: the items as [tolist()] gives them back. *)
Definition array (type_code : string) (values : list value) : result (list value) :=
  if known_typecode type_code then mapM (array_item type_code) values
  else Raise ValueError.

(** What [select_array] returns: an [array] or a [list]. *)
Inductive output : Type :=
| OArray (typecode : string) (items : list value)
| OList (items : list value).

(** ** iterable_to_array.py *)

Definition _try_array (type_code : string) (values : list value) : result (option output) :=
  match array type_code values with
  | Ret items => Ret (Some (OArray type_code items))
  | Raise OverflowError | Raise TypeError | Raise ValueError => Ret None
  | Raise e => Raise e
  end.

Definition _is_all_numeric (values : list value) : bool :=
  forallb isinstance_Number values.

(** The legacy helper [_min_max]: [min] and [max] raise [ValueError] on an
    empty list. *)
Definition _min_max (values : list spec_float) : result (spec_float * spec_float) :=
  match py_min values, py_max values with
  | Some vmin, Some vmax => Ret (vmin, vmax)
  | _, _ => Raise ValueError
  end.

Definition _scan_stats (values : list spec_float)
  : nat * option spec_float * option spec_float * bool :=
  let count := List.length values in
  if (count =? 0)%nat then (0%nat, None, None, false)
  else
    let has_float := existsb (fun v => isinstance_float (VFloat v)) values in
    (count, py_min values, py_max values, has_float).

(** The dictionary [order] of [_type_sequence], as the list of its items. *)
Definition order : list (string * nat) :=
  combine ["b"; "B"; "h"; "H"; "i"; "I"; "q"; "Q"; "f"; "d"] (seq 0 10).

Fixpoint order_get (d : list (string * nat)) (code : string) : option nat :=
  match d with
  | [] => None
  | (k, idx) :: d' => if code == k then Some idx else order_get d' code
  end.

Definition truthy (s : option string) : bool :=
  match s with
  | None => false
  | Some c => negb (c == "")
  end.

Definition _type_sequence (policy : string) (prefer_signed no_float : bool)
    (min_type max_type : option string) : list string :=
  let int_order_signed_first := ["b"; "B"; "h"; "H"; "i"; "I"; "q"; "Q"] in
  let int_order_unsigned_first := ["B"; "b"; "H"; "h"; "I"; "i"; "Q"; "q"] in
  let base := if prefer_signed then int_order_signed_first else int_order_unsigned_first in
  let base :=
    if policy == "balanced" then ["b"; "B"; "h"; "H"; "i"; "I"; "q"; "Q"]
    else if policy == "wide" then ["i"; "I"; "q"; "Q"; "h"; "H"; "b"; "B"]
    else base in
  let seq := base in
  let seq := if negb no_float then (seq ++ ["f"; "d"])%list else seq in
  if truthy min_type || truthy max_type then
    let lo :=
      match min_type with
      | Some c => match order_get order c with Some i => i | None => 0%nat end
      | None => 0%nat
      end in
    let hi :=
      match max_type with
      | Some c =>
          match order_get order c with
          | Some i => i
          | None => fold_right Nat.max 0%nat (map snd order)
          end
      | None => fold_right Nat.max 0%nat (map snd order)
      end in
    filter (fun c =>
              let p := match order_get order c with Some i => i | None => lo end in
              (lo <=? p)%nat && (p <=? hi)%nat) seq
  else seq.

(** The keyword arguments of [select_array], with their defaults. *)
Record options : Type := {
  policy : string;
  min_type : option string;
  max_type : option string;
  prefer_signed : bool;
  allow_float_downgrade : bool;
  no_float : bool;
  strict : bool
}.

Definition default_options : options :=
  {| policy := "smallest"; min_type := None; max_type := None;
     prefer_signed := false; allow_float_downgrade := true;
     no_float := false; strict := false |}.

(** The literal [3.4028235e38], as the double Python reads it: the double
    nearest to the integer 34028235 * 10^31. *)
Definition F32_MAX : spec_float := Eval vm_compute in F64.of_Z (34028235 * 10 ^ 31).

(** [vmax is not None and (abs(vmax) > F32_MAX or
     (vmin is not None and abs(vmin) > F32_MAX))] *)
Definition out_of_f32_range (vmin vmax : option spec_float) : bool :=
  match vmax with
  | None => false
  | Some vmax =>
      F64.gt (SFabs vmax) F32_MAX
      || match vmin with
         | None => false
         | Some vmin => F64.gt (SFabs vmin) F32_MAX
         end
  end.

(** The loop [for code in candidates] of [select_array]: [Some a] when it
    returns the array [a], [None] when it runs to its end. *)
Fixpoint try_candidates (has_float : bool) (vmin vmax : option spec_float)
    (candidates : list string) (values : list value) : result (option output) :=
  match candidates with
  | [] => Ret None
  | code :: rest =>
      if ((code == "f") || (code == "d")) && has_float
         && (code == "f") && out_of_f32_range vmin vmax
      then try_candidates has_float vmin vmax rest values
      else
        a <- _try_array code values ;;
        match a with
        | Some arr => Ret (Some arr)
        | None => try_candidates has_float vmin vmax rest values
        end
  end.

(** The loop [for idx, val in enumerate(values)] of the strict branch: the
    exception it raises, if it raises one. *)
Fixpoint first_violation (try_code : string) (idx : nat) (values : list value)
  : option exn :=
  match values with
  | [] => None
  | val :: rest =>
      match array try_code [val] with
      | Raise _ => Some (SelectionError idx val try_code)
      | Ret _ => first_violation try_code (S idx) rest
      end
  end.

Definition select_array (iterable : list value) (o : options) : result output :=
  let values := iterable in
  if (List.length values =? 0)%nat then Ret (OList [])
  else if negb (_is_all_numeric values) then Ret (OList values)
  else
    floats <- mapM py_float values ;;
    let '(count, vmin, vmax, has_float) := _scan_stats floats in
    let candidates :=
      _type_sequence (policy o) (prefer_signed o) (no_float o) (min_type o) (max_type o) in
    if has_float && no_float o then
      if strict o then
        match find isinstance_float values with
        | Some offending => Raise (SelectionError 0 offending "integers only")
        | None => Raise StopIteration
        end
      else Ret (OList values)
    else
      let candidates :=
        if negb (allow_float_downgrade o) && has_float && out_of_f32_range vmin vmax
        then filter (fun c => negb (c == "f")) candidates
        else candidates in
      r <- try_candidates has_float vmin vmax candidates values ;;
      match r with
      | Some a => Ret a
      | None =>
          if strict o then
            let try_code := last candidates "d" in
            match first_violation try_code 0 values with
            | Some e => Raise e
            | None =>
                match values with
                | v0 :: _ => Raise (SelectionError 0 v0 try_code)
                | [] => Raise IndexError
                end
            end
          else Ret (OList values)
      end.

(** [get_array(iterable)]. *)
Definition get_array (iterable : list value) : result output :=
  select_array iterable
    {| policy := "smallest"; min_type := None; max_type := None;
       prefer_signed := false; allow_float_downgrade := true;
       no_float := false; strict := false |}.

(** [result.py]: the dataclass [ArrayResult]. Its fields [value], [typecode],
    [count], [min], [max] and [reason] carry the prefix [ar_] here. *)
Record ArrayResult : Type := {
  ar_value : output;
  ar_typecode : option string;
  ar_count : nat;
  ar_min : option spec_float;
  ar_max : option spec_float;
  ar_reason : string
}.

Definition analyze_array (iterable : list value) (kwargs : options) : result ArrayResult :=
  let values := iterable in
  if (List.length values =? 0)%nat then
    Ret {| ar_value := OList []; ar_typecode := None; ar_count := 0;
           ar_min := None; ar_max := None; ar_reason := "empty" |}
  else if negb (_is_all_numeric values) then
    Ret {| ar_value := OList values; ar_typecode := None;
           ar_count := List.length values;
           ar_min := None; ar_max := None; ar_reason := "non-numeric" |}
  else
    floats <- mapM py_float values ;;
    let '(count, vmin, vmax, has_float) := _scan_stats floats in
    out <- select_array values kwargs ;;
    match out with
    | OArray typecode _ =>
        Ret {| ar_value := out; ar_typecode := Some typecode; ar_count := count;
               ar_min := vmin; ar_max := vmax;
               ar_reason := if has_float then "float" else "int" |}
    | OList _ =>
        Ret {| ar_value := OList values; ar_typecode := None; ar_count := count;
               ar_min := vmin; ar_max := vmax; ar_reason := "no-fitting-type" |}
    end.

(** The first loop of [stream_array]: [n] calls of [next(it)], stopping at
    [StopIteration]; the chunk read, and what is left of the iterator. *)
Fixpoint pull (n : nat) (it : list value) : list value * list value :=
  match n with
  | O => ([], it)
  | S n' =>
      match it with
      | [] => ([], [])
      | item :: it' => let '(chunk, it'') := pull n' it' in (item :: chunk, it'')
      end
  end.

(** [stream_array] is a generator. An exception that leaves the body of a
    generator reaches the caller as it is, except [StopIteration], which
    reaches it as [RuntimeError] (PEP 479). *)
Definition raised_by_generator (e : exn) : exn :=
  match e with
  | StopIteration => RuntimeError
  | _ => e
  end.

(** What [stream_array] yields for a full buffer, once [code] is decided.
    Every chunk is a fresh object ([list(buf)] or a new array), so clearing
    [buf] afterwards does not touch what was yielded. *)
Definition emit (code : option string) (buf : list value) : result output :=
  match code with
  | None => Ret (OList buf)
  | Some c =>
      a <- _try_array c buf ;;
      match a with
      | Some arr => Ret arr
      | None => Ret (OList buf)
      end
  end.

(** The loop [for item in it] and the final flush of [buf]: the chunks
    yielded, and the exception that ends the generator, if any. *)
Fixpoint stream_rest (code : option string) (chunk_size : Z) (buf it : list value)
  : list output * option exn :=
  match it with
  | [] =>
      match buf with
      | [] => ([], None)
      | _ :: _ =>
          match emit code buf with
          | Ret out => ([out], None)
          | Raise e => ([], Some (raised_by_generator e))
          end
      end
  | item :: it' =>
      let buf := (buf ++ [item])%list in
      if Z.of_nat (List.length buf) >=? chunk_size then
        match emit code buf with
        | Ret out =>
            let '(outs, e) := stream_rest code chunk_size [] it' in (out :: outs, e)
        | Raise e => ([], Some (raised_by_generator e))
        end
      else stream_rest code chunk_size buf it'
  end.

(** [stream_array(iterable, chunk_size=..., **kwargs)] run to its end: the
    chunks it yields, in order, and the exception its caller gets after
    them, if any. *)
Definition stream_array (iterable : list value) (chunk_size : Z) (kwargs : options)
  : list output * option exn :=
  let '(first_chunk, it) := pull (Z.to_nat chunk_size) iterable in
  match first_chunk with
  | [] => ([], None)
  | _ :: _ =>
      match select_array first_chunk kwargs with
      | Raise e => ([], Some (raised_by_generator e))
      | Ret selected =>
          let code :=
            match selected with
            | OArray typecode _ => Some typecode
            | OList _ => None
            end in
          let '(outs, e) := stream_rest code chunk_size [] it in
          (selected :: outs, e)
      end
  end.

(** ** The type catalog and the candidate order, as the specification words them *)

Module Catalog.

Inductive kind : Type := Signed | Unsigned | Floating.

Definition kind_eqb (a b : kind) : bool :=
  match a, b with
  | Signed, Signed | Unsigned, Unsigned | Floating, Floating => true
  | _, _ => false
  end.

Record encoding : Type := { code : string; width : Z; sort : kind }.

(** The ten encodings in canonical order, widths in bytes. *)
Definition catalog : list encoding :=
  [ {| code := "b"; width := 1; sort := Signed |};
    {| code := "B"; width := 1; sort := Unsigned |};
    {| code := "h"; width := 2; sort := Signed |};
    {| code := "H"; width := 2; sort := Unsigned |};
    {| code := "i"; width := 4; sort := Signed |};
    {| code := "I"; width := 4; sort := Unsigned |};
    {| code := "q"; width := 8; sort := Signed |};
    {| code := "Q"; width := 8; sort := Unsigned |};
    {| code := "f"; width := 4; sort := Floating |};
    {| code := "d"; width := 8; sort := Floating |} ].

(** The codes of the encodings of a given kind and width. *)
Definition codes (k : kind) (w : Z) : list string :=
  map code (filter (fun e => kind_eqb (sort e) k && (width e =? w)) catalog).

(** The position of a code in the canonical order. *)
Fixpoint index_of (c : string) (l : list encoding) (i : nat) : option nat :=
  match l with
  | [] => None
  | e :: l' => if c == code e then Some i else index_of c l' (S i)
  end.

Definition position (c : string) : option nat := index_of c catalog 0.

Inductive policy_name : Type := Smallest | Balanced | Wide.

Definition signed_then_unsigned (w : Z) : list string :=
  (codes Signed w ++ codes Unsigned w)%list.

Definition unsigned_then_signed (w : Z) : list string :=
  (codes Unsigned w ++ codes Signed w)%list.

Definition integer_order (p : policy_name) (prefer_signed : bool) : list string :=
  match p with
  | Smallest =>
      flat_map (if prefer_signed then signed_then_unsigned else unsigned_then_signed)
               [1; 2; 4; 8]
  | Balanced => flat_map signed_then_unsigned [1; 2; 4; 8]
  | Wide => flat_map signed_then_unsigned [4; 8; 2; 1]
  end.

Definition float_order (no_float : bool) : list string :=
  if no_float then [] else (codes Floating 4 ++ codes Floating 8)%list.

(** A bound that is absent or not a code of the catalog is ignored. *)
Definition bound (b : option string) (default : nat) : nat :=
  match b with
  | Some c => match position c with Some i => i | None => default end
  | None => default
  end.

Definition in_window (lo hi : nat) (c : string) : bool :=
  match position c with
  | Some p => (lo <=? p)%nat && (p <=? hi)%nat
  | None => false
  end.

Definition sequence (p : policy_name) (prefer_signed no_float : bool)
    (min_type max_type : option string) : list string :=
  filter (in_window (bound min_type 0) (bound max_type (List.length catalog - 1)))
         (integer_order p prefer_signed ++ float_order no_float)%list.

End Catalog.

(** ** Notions the properties are stated with *)

(** The windows of at most [n] items a list splits into, in arrival order;
    [fuel] bounds their number. *)
Fixpoint windows (fuel n : nat) (l : list value) : list (list value) :=
  match fuel with
  | O => []
  | S fuel' =>
      match l with
      | [] => []
      | _ :: _ => firstn n l :: windows fuel' n (skipn n l)
      end
  end.

(** The encoding a stream is committed to by its first chunk. *)
Definition committed (first : output) : option string :=
  match first with
  | OArray typecode _ => Some typecode
  | OList _ => None
  end.

(** A window checked against the commitment: a typed buffer of the committed
    code when [array] accepts the window, the window itself otherwise. *)
Definition chunk_for (code : option string) (w : list value) : output :=
  match code with
  | None => OList w
  | Some c =>
      match array c w with
      | Ret items => OArray c items
      | Raise _ => OList w
      end
  end.

(** The double [3.5], that is 7 * 2^-1. *)
Definition float_3_5 : spec_float := Eval vm_compute in binary_normalize 53 1024 7 (-1) false.

(** The options [o] with [no_float=True] and the given [strict]. *)
Definition with_no_float (o : options) (strict' : bool) : options :=
  {| policy := policy o; min_type := min_type o; max_type := max_type o;
     prefer_signed := prefer_signed o;
     allow_float_downgrade := allow_float_downgrade o;
     no_float := true; strict := strict' |}.

(** The candidates left by the float-32 guard of [select_array]. *)
Definition guarded_candidates (o : options) (floats : list spec_float) : list string :=
  let candidates :=
    _type_sequence (policy o) (prefer_signed o) (no_float o) (min_type o) (max_type o) in
  if negb (allow_float_downgrade o) && out_of_f32_range (py_min floats) (py_max floats)
  then filter (fun c => negb (c == "f")) candidates
  else candidates.

(** The integer a value is, for [int] and its subclass [bool]. *)
Definition int_value (v : value) : option Z :=
  match v with
  | VInt n => Some n
  | VBool b => Some (Z.b2z b)
  | _ => None
  end.

(** [x == n] for a float [x] and an integer [n]: Python compares the exact
    values. *)
Definition float_eq_int (x : spec_float) (n : Z) : bool :=
  match x with
  | S754_zero _ => n =? 0
  | S754_finite s m e =>
      if 0 <=? e then n =? cond_Zopp s (Zpos m * 2 ^ e)
      else n * 2 ^ (- e) =? cond_Zopp s (Zpos m)
  | _ => false
  end.

(** [v == w] on numbers: what an exact round trip preserves. *)
Definition same_number (v w : value) : bool :=
  match int_value v, int_value w with
  | Some a, Some b => a =? b
  | Some a, None => match w with VFloat y => float_eq_int y a | _ => false end
  | None, Some b => match v with VFloat x => float_eq_int x b | _ => false end
  | None, None =>
      match v, w with
      | VFloat x, VFloat y => SFeqb x y
      | _, _ => false
      end
  end.

(** How an item of the input sits in an array of a given code: for an
    integer code it is an integer of the range, kept as it is; for a float
    code it is what [PyFloat_AsDouble] makes of it, rounded to binary32 for
    ['f']. *)
Definition stored_as (code : string) (v item : value) : Prop :=
  match int_range code with
  | Some (lo, hi) =>
      exists n, int_value v = Some n /\ lo <= n <= hi /\ item = VInt n
                /\ same_number v item = true
  | None =>
      exists x, as_double v = Ret x
                /\ ((code = "f" /\ item = VFloat (F64.round_f32 x))
                    \/ (code = "d" /\ item = VFloat x))
  end.



(** A candidate accepts the input when the loop of [select_array] tries it
    (float-32 is passed over when the data leaves its finite range) and
    [array] builds the whole input with it. *)
Definition accepts (floats : list spec_float) (code : string) (values : list value) : Prop :=
  (code = "f" -> out_of_f32_range (py_min floats) (py_max floats) = false)
  /\ exists items, array code values = Ret items.


(** [min_type='d', max_type='b', strict=True]: no candidate is left. *)
Definition strict_inverted_bounds : options :=
  {| policy := "smallest"; min_type := Some "d"; max_type := Some "b";
     prefer_signed := false; allow_float_downgrade := true;
     no_float := false; strict := true |}.

(** [max_type='f', strict=True]: the candidates are the eight integer codes
    and ['f']. *)
Definition strict_up_to_float32 : options :=
  {| policy := "smallest"; min_type := None; max_type := Some "f";
     prefer_signed := false; allow_float_downgrade := true;
     no_float := false; strict := true |}.

(** The doubles [0.5], that is 2^-1, and [1e40], the double nearest to
    10^40. *)
Definition float_0_5 : spec_float := Eval vm_compute in binary_normalize 53 1024 1 (-1) false.
Definition float_1e40 : spec_float := Eval vm_compute in F64.of_Z (10 ^ 40).

(** A number is placed by its class, then its exponent, then its mantissa;
    NaN has no place. *)
Definition float_key (x : spec_float) : option (Z * Z * Z) :=
  match x with
  | S754_nan => None
  | S754_infinity true => Some (-2, 0, 0)
  | S754_finite true m e => Some (-1, - e, - Z.pos m)
  | S754_zero _ => Some (0, 0, 0)
  | S754_finite false m e => Some (1, e, Z.pos m)
  | S754_infinity false => Some (2, 0, 0)
  end.

(** The lexicographic order of the places. *)
Definition float_key_lt (a b : Z * Z * Z) : Prop :=
  let '(a1, a2, a3) := a in
  let '(b1, b2, b3) := b in
  a1 < b1 \/ (a1 = b1 /\ (a2 < b2 \/ (a2 = b2 /\ a3 < b3))).

(** [x < y] read on the places: false as soon as one of them is NaN. *)
Definition lt_by_key (x y : spec_float) : Prop :=
  match float_key x, float_key y with
  | Some a, Some b => float_key_lt a b
  | _, _ => False
  end.

(** The mantissa of a double has at most 53 bits. *)
Definition double_mantissa (x : spec_float) : Prop :=
  match x with
  | S754_finite _ m _ => Z.pos (digits2_pos m) <= 53
  | _ => True
  end.

(** A float-32 that is not an infinity. *)
Definition finite_f32 (y : spec_float) : Prop :=
  match y with
  | S754_finite _ m e => Z.pos (digits2_pos m) <= 24 /\ -149 <= e <= 104
  | S754_infinity _ => False
  | _ => True
  end.

(** One step of [max] and of [min]. *)
Definition max_step (cur item : spec_float) : spec_float :=
  if F64.gt item cur then item else cur.

Definition min_step (cur item : spec_float) : spec_float :=
  if F64.lt item cur then item else cur.

(** [abs(x) > F32_MAX] is false. *)
Definition in_f32_range (x : spec_float) : Prop :=
  F64.gt (SFabs x) F32_MAX = false.

(** A Python float is a double: its mantissa and exponent are those of the
    binary64 format. *)
Definition valid_value (v : value) : Prop :=
  match v with
  | VFloat x => valid_binary F64.prec F64.emax x = true
  | _ => True
  end.

(** ** Options with one keyword changed *)

(** The options [o] with [strict] set to [b]. *)
Definition set_strict (o : options) (b : bool) : options :=
  {| policy := policy o; min_type := min_type o; max_type := max_type o;
     prefer_signed := prefer_signed o;
     allow_float_downgrade := allow_float_downgrade o;
     no_float := no_float o; strict := b |}.

(** The options [o] with [allow_float_downgrade] set to [b]. *)
Definition set_allow_float_downgrade (o : options) (b : bool) : options :=
  {| policy := policy o; min_type := min_type o; max_type := max_type o;
     prefer_signed := prefer_signed o;
     allow_float_downgrade := b;
     no_float := no_float o; strict := strict o |}.

(** The number of items of a result. *)
Definition output_length (out : output) : nat :=
  match out with
  | OArray _ items => List.length items
  | OList items => List.length items
  end.

(** A real number that [float] converts: a float, a [bool], or an integer
    below [2^1023] in magnitude. *)
Definition real_value (v : value) : Prop :=
  match v with
  | VInt n => Z.abs n < 2 ^ 1023
  | VBool _ | VFloat _ => True
  | VComplex _ _ | VStr _ | VNone => False
  end.

(** The default options with the policy [wide]. *)
Definition wide_options : options :=
  {| policy := "wide"; min_type := None; max_type := None;
     prefer_signed := false; allow_float_downgrade := true;
     no_float := false; strict := false |}.

(** ** arrow_compat.py: [_chunks] *)

(** The loop [for v in it] of [_chunks] and its final [if buf: yield buf]:
    the lists yielded, in order. After [yield buf] the name [buf] is bound
    to a new list, so a yielded list is not touched again. *)
Fixpoint chunks_loop {A : Type} (size : Z) (buf it : list A) : list (list A) :=
  match it with
  | [] =>
      match buf with
      | [] => []
      | _ :: _ => [buf]
      end
  | v :: it' =>
      let buf := (buf ++ [v])%list in
      if Z.of_nat (List.length buf) >=? size then buf :: chunks_loop size [] it'
      else chunks_loop size buf it'
  end.

Definition _chunks {A : Type} (it : list A) (size : Z) : list (list A) :=
  chunks_loop size [] it.

(** ** numpy_compat.py *)

Module Numpy.

(** The NumPy scalar types the module names, and [object]. *)
Inductive dtype : Type :=
| int8 | uint8 | int16 | uint16 | int32 | uint32 | int64 | uint64
| float32 | float64 | object.

(** The bytes per item of a dtype and its kind, as NumPy defines them. *)
Definition itemsize (dt : dtype) : option Z :=
  match dt with
  | int8 | uint8 => Some 1
  | int16 | uint16 => Some 2
  | int32 | uint32 | float32 => Some 4
  | int64 | uint64 | float64 => Some 8
  | object => None
  end.

Definition kind (dt : dtype) : option Catalog.kind :=
  match dt with
  | int8 | int16 | int32 | int64 => Some Catalog.Signed
  | uint8 | uint16 | uint32 | uint64 => Some Catalog.Unsigned
  | float32 | float64 => Some Catalog.Floating
  | object => None
  end.

Section Bridge.

(** NumPy itself is outside the module: its arrays, the exceptions it raises
    and the three functions [to_numpy] calls are parameters. *)
Variable ndarray : Type.
Variable LibError : Type.

Inductive error : Type :=
| Py (e : exn)
| RuntimeError
| KeyError
| Lib (e : LibError).

Inductive outcome (A : Type) : Type :=
| Done (a : A)
| Failed (e : error).

Arguments Done {A} a.
Arguments Failed {A} e.

(** [np.frombuffer(out, dtype=dt)] on an array of the given type code and
    items, [np.array(items, dtype=object)] and [np.asarray(items, dtype=dt)]. *)
Variable frombuffer : string -> list value -> dtype -> outcome ndarray.
Variable array_object : list value -> outcome ndarray.
Variable asarray : list value -> dtype -> outcome ndarray.

(** The dictionary of [_typecode_to_numpy_dtype], subscripted with [code]. *)
Definition _typecode_to_numpy_dtype (code : string) : outcome dtype :=
  if code == "b" then Done int8
  else if code == "B" then Done uint8
  else if code == "h" then Done int16
  else if code == "H" then Done uint16
  else if code == "i" then Done int32
  else if code == "I" then Done uint32
  else if code == "q" then Done int64
  else if code == "Q" then Done uint64
  else if code == "f" then Done float32
  else if code == "d" then Done float64
  else Failed KeyError.

(** [to_numpy(iterable, dtype, copy, **policy)]; [np_available] says whether
    the import of NumPy succeeded. *)
Definition to_numpy (np_available : bool) (iterable : list value) (dtype_name : string)
    (copy : bool) (policy : options) : outcome ndarray :=
  if negb np_available then Failed RuntimeError
  else if dtype_name == "min" then
    match select_array iterable policy with
    | Raise e => Failed (Py e)
    | Ret (OArray typecode items) =>
        match _typecode_to_numpy_dtype typecode with
        | Done dt => frombuffer typecode items dt
        | Failed e => Failed e
        end
    | Ret (OList items) => array_object items
    end
  else if (dtype_name == "float32") || (dtype_name == "float64")
          || (dtype_name == "int64") || (dtype_name == "uint64") then
    let np_dtype :=
      if dtype_name == "float32" then float32
      else if dtype_name == "float64" then float64
      else if dtype_name == "int64" then int64
      else uint64 in
    asarray iterable np_dtype
  else Failed (Py ValueError).

End Bridge.

Arguments Done {LibError A} a.
Arguments Failed {LibError A} e.
Arguments Py {LibError} e.
Arguments RuntimeError {LibError}.
Arguments KeyError {LibError}.

End Numpy.

(** * Properties *)

(** ** The candidate sequencer *)

Lemma order_get_position (c : string) :
  order_get order c = Catalog.position c.
Proof.
  unfold order, Catalog.position. cbn.
  repeat match goal with |- context [c == ?k] => destruct (c == k) end; reflexivity.
Qed.

Lemma order_max : fold_right Nat.max 0%nat (map snd order) = 9%nat.
Proof. reflexivity. Qed.

Lemma truthy_false_bound (b : option string) (default : nat) :
  truthy b = false -> Catalog.bound b default = default.
Proof.
  destruct b as [c|]; cbn; [|reflexivity].
  intros H. apply negb_false_iff, String.eqb_eq in H. subst c. reflexivity.
Qed.

Lemma _type_sequence_spec (p : Catalog.policy_name) (prefer_signed no_float : bool)
    (min_type max_type : option string) :
  _type_sequence
    match p with
    | Catalog.Smallest => "smallest"
    | Catalog.Balanced => "balanced"
    | Catalog.Wide => "wide"
    end prefer_signed no_float min_type max_type
  = Catalog.sequence p prefer_signed no_float min_type max_type.
Proof.
  unfold _type_sequence, Catalog.sequence.
  destruct (truthy min_type || truthy max_type) eqn:T.
  - replace (match min_type with
             | Some c => match order_get order c with Some i => i | None => 0%nat end
             | None => 0%nat
             end) with (Catalog.bound min_type 0)
      by (destruct min_type; cbn [Catalog.bound]; rewrite ?order_get_position; reflexivity).
    replace (match max_type with
             | Some c =>
                 match order_get order c with
                 | Some i => i
                 | None => fold_right Nat.max 0%nat (map snd order)
                 end
             | None => fold_right Nat.max 0%nat (map snd order)
             end) with (Catalog.bound max_type (List.length Catalog.catalog - 1))
      by (destruct max_type; cbn [Catalog.bound]; rewrite ?order_get_position, order_max;
          reflexivity).
    generalize (Catalog.bound min_type 0) as lo.
    generalize (Catalog.bound max_type (List.length Catalog.catalog - 1)) as hi.
    intros hi lo.
    destruct p, prefer_signed, no_float; reflexivity.
  - apply orb_false_iff in T. destruct T as [T1 T2].
    rewrite (truthy_false_bound _ _ T1), (truthy_false_bound _ _ T2).
    destruct p, prefer_signed, no_float; reflexivity.
Qed.

(** C6. [_type_sequence] returns the list the specification describes: for
    [smallest] the eight integer codes by ascending width, signed before
    unsigned within a width exactly when [prefer_signed]; for [balanced]
    signed then unsigned by ascending width whatever [prefer_signed]; for
    [wide] the widths 4, 8, 2, 1, signed then unsigned; float32 then float64
    appended unless [no_float]; and the whole filtered by the canonical
    positions of [min_type] and [max_type], a bound that is no code of the
    catalog being ignored. *)
Theorem type_sequence_matches_catalog_order :
  forall (prefer_signed no_float : bool) (min_type max_type : option string),
    _type_sequence "smallest" prefer_signed no_float min_type max_type
    = Catalog.sequence Catalog.Smallest prefer_signed no_float min_type max_type
    /\ _type_sequence "balanced" prefer_signed no_float min_type max_type
       = Catalog.sequence Catalog.Balanced prefer_signed no_float min_type max_type
    /\ _type_sequence "wide" prefer_signed no_float min_type max_type
       = Catalog.sequence Catalog.Wide prefer_signed no_float min_type max_type
    /\ Catalog.integer_order Catalog.Balanced prefer_signed
       = ["b"; "B"; "h"; "H"; "i"; "I"; "q"; "Q"]
    /\ Catalog.integer_order Catalog.Wide prefer_signed
       = ["i"; "I"; "q"; "Q"; "h"; "H"; "b"; "B"].
Proof.
  intros. repeat split.
  - exact (_type_sequence_spec Catalog.Smallest _ _ _ _).
  - exact (_type_sequence_spec Catalog.Balanced _ _ _ _).
  - exact (_type_sequence_spec Catalog.Wide _ _ _ _).
Qed.

(** ** What [array] raises, and what [_try_array] returns *)

Lemma int_to_float_raises (n : Z) (e : exn) :
  int_to_float n = Raise e -> e = OverflowError.
Proof.
  unfold int_to_float. destruct (F64.of_Z n); intros H; inversion H; reflexivity.
Qed.

Lemma as_double_raises (v : value) (e : exn) :
  as_double v = Raise e -> e = OverflowError \/ e = TypeError.
Proof.
  destruct v; cbn; intros H;
    try (apply int_to_float_raises in H; now left);
    inversion H; now right.
Qed.

Lemma array_item_raises (c : string) (v : value) (e : exn) :
  array_item c v = Raise e -> e = OverflowError \/ e = TypeError \/ e = ValueError.
Proof.
  unfold array_item. destruct (int_range c) as [[lo hi]|].
  - destruct v; try (intros H; inversion H; tauto).
    destruct ((lo <=? n) && (n <=? hi)); intros H; inversion H; tauto.
  - destruct (c == "f"); [|destruct (c == "d")].
    + destruct (as_double v) eqn:E; cbn; intros H; inversion H; subst.
      apply as_double_raises in E. tauto.
    + destruct (as_double v) eqn:E; cbn; intros H; inversion H; subst.
      apply as_double_raises in E. tauto.
    + intros H; inversion H; tauto.
Qed.

Lemma mapM_raises {A B : Type} (P : exn -> Prop) (f : A -> result B) (l : list A) (e : exn) :
  (forall a e', f a = Raise e' -> P e') -> mapM f l = Raise e -> P e.
Proof.
  intros Hf. induction l as [|a l IH]; cbn; [discriminate|].
  destruct (f a) eqn:Ea; cbn.
  - destruct (mapM f l); cbn; [discriminate|].
    intros H; inversion H; subst; auto.
  - intros H; inversion H; subst; eauto.
Qed.

Lemma array_raises (c : string) (values : list value) (e : exn) :
  array c values = Raise e -> e = OverflowError \/ e = TypeError \/ e = ValueError.
Proof.
  unfold array. destruct (known_typecode c).
  - intros H.
    exact (mapM_raises (fun e => e = OverflowError \/ e = TypeError \/ e = ValueError)
             _ _ _ (array_item_raises c) H).
  - intros H; inversion H; tauto.
Qed.

(** [_try_array] itself never raises: every exception of [array] is one of
    the three it catches. *)
Lemma _try_array_eq (c : string) (values : list value) :
  _try_array c values =
  Ret match array c values with
      | Ret items => Some (OArray c items)
      | Raise _ => None
      end.
Proof.
  unfold _try_array. destruct (array c values) as [items|e] eqn:E; [reflexivity|].
  apply array_raises in E. destruct E as [->|[->| ->]]; reflexivity.
Qed.

(** ** Streaming *)

Lemma emit_chunk_for (code : option string) (buf : list value) :
  emit code buf = Ret (chunk_for code buf).
Proof.
  destruct code as [c|]; cbn; [|reflexivity].
  rewrite _try_array_eq. cbn. destruct (array c buf); reflexivity.
Qed.

Lemma pull_firstn_skipn (n : nat) (it : list value) :
  pull n it = (firstn n it, skipn n it).
Proof.
  revert it. induction n as [|n IH]; intros [|item it]; cbn; try reflexivity.
  rewrite IH. reflexivity.
Qed.

Lemma windows_nil (fuel n : nat) : windows fuel n [] = [].
Proof. destruct fuel; reflexivity. Qed.

Lemma windows_fuel (n : nat) :
  (0 < n)%nat ->
  forall (fuel fuel' : nat) (l : list value),
    (List.length l <= fuel)%nat -> (List.length l <= fuel')%nat ->
    windows fuel n l = windows fuel' n l.
Proof.
  intros Hn fuel. induction fuel as [|fuel IH]; intros fuel' l Hl Hl'.
  - destruct l; [now rewrite !windows_nil|cbn in Hl; lia].
  - destruct l as [|a l]; [now rewrite !windows_nil|].
    destruct fuel' as [|fuel']; [cbn in Hl'; lia|].
    cbn [windows]. f_equal.
    assert (Hs : (List.length (skipn n (a :: l)) <= List.length l)%nat)
      by (rewrite length_skipn; cbn [List.length]; lia).
    cbn [List.length] in Hl, Hl'. apply IH; lia.
Qed.

Lemma stream_rest_windows (code : option string) (n : nat) :
  (0 < n)%nat ->
  forall (it buf : list value),
    (List.length buf < n)%nat ->
    stream_rest code (Z.of_nat n) buf it
    = (map (chunk_for code) (windows (List.length (buf ++ it)) n (buf ++ it)), None).
Proof.
  intros Hn it. induction it as [|item it IH]; intros buf Hbuf.
  - rewrite app_nil_r. destruct buf as [|b buf]; [reflexivity|].
    cbn [stream_rest]. rewrite emit_chunk_for.
    cbn [List.length windows].
    rewrite firstn_all2, skipn_all2, windows_nil by lia. reflexivity.
  - cbn [stream_rest].
    destruct (Z.of_nat (List.length (buf ++ [item])) >=? Z.of_nat n) eqn:E.
    + rewrite Z.geb_leb in E. apply Z.leb_le in E.
      assert (Hlen : List.length (buf ++ [item]) = n)
        by (rewrite length_app in *; cbn [List.length] in *; lia).
      rewrite emit_chunk_for, (IH [] Hn). cbn [app].
      replace (buf ++ item :: it)%list with ((buf ++ [item]) ++ it)%list
        by (rewrite <- app_assoc; reflexivity).
      assert (Hk : List.length ((buf ++ [item]) ++ it) = (n + List.length it)%nat)
        by (rewrite length_app; lia).
      rewrite Hk.
      destruct (n + List.length it)%nat as [|k] eqn:Ek; [lia|].
      destruct ((buf ++ [item]) ++ it)%list as [|x xs] eqn:Ex;
        [destruct buf; discriminate|].
      cbn [windows]. rewrite <- Ex.
      assert (Hf : firstn n ((buf ++ [item]) ++ it) = (buf ++ [item])%list).
      { rewrite firstn_app, Hlen, Nat.sub_diag, firstn_O, app_nil_r.
        rewrite <- Hlen. apply firstn_all. }
      assert (Hs : skipn n ((buf ++ [item]) ++ it) = it).
      { rewrite skipn_app, Hlen, Nat.sub_diag, skipn_O.
        rewrite <- Hlen, skipn_all. reflexivity. }
      rewrite Hf, Hs. cbn [map].
      f_equal. f_equal. f_equal.
      apply windows_fuel; [exact Hn|lia|lia].
    + rewrite Z.geb_leb in E. apply Z.leb_gt in E.
      rewrite (IH (buf ++ [item])%list) by lia.
      rewrite <- app_assoc. reflexivity.
Qed.

(** C7. With [chunk_size=2] the input [1, 2, 300, 4] streams as the ['B']
    array of [1, 2] followed by the list [300, 4]. In general the first chunk
    is what [select_array] returns for the first window, and every later
    window is emitted as an array of exactly the code the first chunk
    committed to when [array] accepts it with that code, and as the list of
    its items otherwise (always as a list when nothing was committed). When
    [select_array] raises on the first window nothing is yielded, and the
    caller gets that exception, a [StopIteration] as [RuntimeError]. *)
Theorem stream_array_commits_to_first_chunk :
  stream_array [VInt 1; VInt 2; VInt 300; VInt 4] 2 default_options
  = ([OArray "B" [VInt 1; VInt 2]; OList [VInt 300; VInt 4]], None)
  /\ forall (iterable : list value) (chunk_size : Z) (o : options),
      stream_array iterable chunk_size o
      = let n := Z.to_nat chunk_size in
        match firstn n iterable with
        | [] => ([], None)
        | first_chunk =>
            match select_array first_chunk o with
            | Raise StopIteration => ([], Some RuntimeError)
            | Raise e => ([], Some e)
            | Ret first =>
                (first :: map (chunk_for (committed first))
                              (windows (List.length (skipn n iterable)) n (skipn n iterable)),
                 None)
            end
        end.
Proof.
  split; [reflexivity|].
  intros iterable chunk_size o. unfold stream_array.
  rewrite pull_firstn_skipn. cbv zeta.
  destruct (firstn (Z.to_nat chunk_size) iterable) as [|x xs] eqn:Ef; [reflexivity|].
  destruct (select_array (x :: xs) o) as [first|e]; [|destruct e; reflexivity].
  assert (Hn : (0 < Z.to_nat chunk_size)%nat)
    by (destruct (Z.to_nat chunk_size); [discriminate|lia]).
  replace chunk_size with (Z.of_nat (Z.to_nat chunk_size)) at 1 by lia.
  fold (committed first).
  rewrite (stream_rest_windows _ _ Hn _ []) by exact Hn.
  reflexivity.
Qed.

(** C10. With a [chunk_size] of zero or less the first window is empty and
    the generator ends at once: nothing is yielded and nothing is raised,
    whatever the source holds. *)
Theorem stream_array_nonpositive_chunk_size :
  forall (iterable : list value) (chunk_size : Z) (o : options),
    chunk_size <= 0 -> stream_array iterable chunk_size o = ([], None).
Proof.
  intros iterable chunk_size o H. unfold stream_array.
  replace (Z.to_nat chunk_size) with O by lia. reflexivity.
Qed.

Lemma stream_array_nonpositive_chunk_size_witness :
  stream_array [VInt 1; VInt 2; VInt 3] (-1) default_options = ([], None).
Proof.
  apply (stream_array_nonpositive_chunk_size [VInt 1; VInt 2; VInt 3] (-1) default_options).
  lia.
Defined.

(** ** Non-numeric input *)

Lemma not_all_numeric (values : list value) :
  Exists (fun v => isinstance_Number v = false) values ->
  _is_all_numeric values = false /\ (List.length values =? 0)%nat = false.
Proof.
  intros H. split.
  - unfold _is_all_numeric. induction H as [v l Hv|v l _ IH]; cbn.
    + rewrite Hv. reflexivity.
    + rewrite IH. apply andb_false_r.
  - destruct H; reflexivity.
Qed.

(** C8. A sequence with at least one element that is not a number comes
    back from [select_array] as the list of its items, unchanged, whatever
    the options; [analyze_array] reports it with reason [non-numeric], no
    type code, no minimum and no maximum, and the same list as value. *)
Theorem non_numeric_input_is_returned_unchanged :
  forall (values : list value) (o : options),
    Exists (fun v => isinstance_Number v = false) values ->
    select_array values o = Ret (OList values)
    /\ analyze_array values o
       = Ret {| ar_value := OList values; ar_typecode := None;
                ar_count := List.length values; ar_min := None; ar_max := None;
                ar_reason := "non-numeric" |}.
Proof.
  intros values o H. apply not_all_numeric in H. destruct H as [Hn He].
  unfold select_array, analyze_array. rewrite He, Hn. split; reflexivity.
Qed.

Lemma non_numeric_input_is_returned_unchanged_witness :
  select_array [VInt 1; VStr "a"; VNone] default_options
  = Ret (OList [VInt 1; VStr "a"; VNone])
  /\ analyze_array [VInt 1; VStr "a"; VNone] default_options
     = Ret {| ar_value := OList [VInt 1; VStr "a"; VNone]; ar_typecode := None;
              ar_count := 3; ar_min := None; ar_max := None;
              ar_reason := "non-numeric" |}.
Proof.
  apply (non_numeric_input_is_returned_unchanged [VInt 1; VStr "a"; VNone] default_options).
  apply Exists_cons_tl. apply Exists_cons_hd. reflexivity.
Defined.

(** ** The selector on numeric input *)

Lemma mapM_length {A B : Type} (f : A -> result B) (l : list A) (bs : list B) :
  mapM f l = Ret bs -> List.length bs = List.length l.
Proof.
  revert bs. induction l as [|a l IH]; cbn; intros bs H.
  - inversion H. reflexivity.
  - destruct (f a); cbn in H; [|discriminate].
    destruct (mapM f l); cbn in H; [|discriminate].
    inversion H. cbn. f_equal. apply IH. reflexivity.
Qed.

(** [_scan_stats] is handed floats only, so its [isinstance] test succeeds on
    the first of them. *)
Lemma _scan_stats_nonempty (floats : list spec_float) :
  floats <> [] ->
  _scan_stats floats = (List.length floats, py_min floats, py_max floats, true).
Proof.
  destruct floats as [|x floats]; [congruence|reflexivity].
Qed.

(** [select_array] once the input is known to be non-empty, numeric and
    convertible by [float]. *)
Lemma select_array_numeric (values : list value) (o : options) (floats : list spec_float) :
  values <> [] ->
  _is_all_numeric values = true ->
  mapM py_float values = Ret floats ->
  select_array values o =
  if no_float o then
    if strict o then
      match find isinstance_float values with
      | Some offending => Raise (SelectionError 0 offending "integers only")
      | None => Raise StopIteration
      end
    else Ret (OList values)
  else
    r <- try_candidates true (py_min floats) (py_max floats)
           (guarded_candidates o floats) values ;;
    match r with
    | Some a => Ret a
    | None =>
        if strict o then
          let try_code := last (guarded_candidates o floats) "d" in
          match first_violation try_code 0 values with
          | Some e => Raise e
          | None =>
              match values with
              | v0 :: _ => Raise (SelectionError 0 v0 try_code)
              | [] => Raise IndexError
              end
          end
        else Ret (OList values)
    end.
Proof.
  intros Hne Hnum Hf. unfold select_array.
  destruct values as [|v values]; [congruence|].
  cbn [List.length Nat.eqb]. rewrite Hnum. cbn [negb]. rewrite Hf. cbn [bind].
  rewrite _scan_stats_nonempty.
  2:{ apply mapM_length in Hf. destruct floats; [discriminate|congruence]. }
  unfold guarded_candidates. cbn [andb]. rewrite andb_true_r.
  destruct (no_float o); reflexivity.
Qed.

Lemma try_candidates_some (hf : bool) (vmin vmax : option spec_float)
    (candidates : list string) (values : list value) (out : output) :
  try_candidates hf vmin vmax candidates values = Ret (Some out) ->
  exists code items,
    out = OArray code items /\ In code candidates /\ array code values = Ret items.
Proof.
  induction candidates as [|c cs IH]; cbn [try_candidates]; [discriminate|].
  destruct (((c == "f") || (c == "d")) && hf && (c == "f") && out_of_f32_range vmin vmax).
  - intros H. destruct (IH H) as (code & items & ? & ? & ?).
    exists code, items. cbn. auto.
  - rewrite _try_array_eq. cbn [bind].
    destruct (array c values) as [items|e] eqn:E.
    + intros H. inversion H. exists c, items. cbn. auto.
    + intros H. destruct (IH H) as (code & items & ? & ? & ?).
      exists code, items. cbn. auto.
Qed.

Lemma try_candidates_total (hf : bool) (vmin vmax : option spec_float)
    (candidates : list string) (values : list value) :
  exists r, try_candidates hf vmin vmax candidates values = Ret r.
Proof.
  induction candidates as [|c cs IH]; cbn [try_candidates]; [eauto|].
  destruct (((c == "f") || (c == "d")) && hf && (c == "f") && out_of_f32_range vmin vmax);
    [exact IH|].
  rewrite _try_array_eq. cbn [bind].
  destruct (array c values); [eauto|exact IH].
Qed.

(** Whenever [select_array] returns an array, [array] built it from the whole
    input with one of the candidate codes. *)
Lemma select_array_returns_array (values : list value) (o : options)
    (code : string) (items : list value) :
  select_array values o = Ret (OArray code items) ->
  exists floats,
    values <> [] /\ _is_all_numeric values = true
    /\ mapM py_float values = Ret floats
    /\ no_float o = false
    /\ try_candidates true (py_min floats) (py_max floats)
         (guarded_candidates o floats) values = Ret (Some (OArray code items))
    /\ array code values = Ret items.
Proof.
  intros H.
  destruct values as [|v values]; [discriminate|].
  destruct (_is_all_numeric (v :: values)) eqn:Hnum.
  2:{ unfold select_array in H. cbn [List.length Nat.eqb] in H. rewrite Hnum in H.
      discriminate. }
  destruct (mapM py_float (v :: values)) as [floats|e] eqn:Hf.
  2:{ unfold select_array in H. cbn [List.length Nat.eqb] in H.
      rewrite Hnum, Hf in H. discriminate. }
  rewrite (select_array_numeric _ o floats) in H by (congruence || assumption).
  exists floats. repeat split; try congruence.
  - destruct (no_float o); [|reflexivity].
    destruct (strict o); [destruct (find isinstance_float (v :: values))|]; discriminate.
  - destruct (no_float o).
    { destruct (strict o); [destruct (find isinstance_float (v :: values))|]; discriminate. }
    destruct (try_candidates true (py_min floats) (py_max floats)
                (guarded_candidates o floats) (v :: values)) as [[a|]|e] eqn:E;
      cbn [bind] in H.
    + inversion H. reflexivity.
    + destruct (strict o); [|discriminate].
      cbv zeta in H. destruct (first_violation _ 0 (v :: values)); discriminate.
    + discriminate.
  - destruct (no_float o).
    { destruct (strict o); [destruct (find isinstance_float (v :: values))|]; discriminate. }
    destruct (try_candidates true (py_min floats) (py_max floats)
                (guarded_candidates o floats) (v :: values)) as [[a|]|e] eqn:E;
      cbn [bind] in H.
    + inversion H; subst a. apply try_candidates_some in E.
      destruct E as (c & its & Ho & _ & Ha). inversion Ho; subst. exact Ha.
    + destruct (strict o); [|discriminate].
      cbv zeta in H. destruct (first_violation _ 0 (v :: values)); discriminate.
    + discriminate.
Qed.

(** ** What a returned array holds *)

Lemma mapM_Forall2 {A B : Type} (R : A -> B -> Prop) (f : A -> result B)
    (l : list A) (bs : list B) :
  (forall a b, f a = Ret b -> R a b) -> mapM f l = Ret bs -> Forall2 R l bs.
Proof.
  intros Hf. revert bs. induction l as [|a l IH]; cbn; intros bs H.
  - inversion H. constructor.
  - destruct (f a) as [b|] eqn:Ea; cbn in H; [|discriminate].
    destruct (mapM f l) as [bs'|]; cbn in H; [|discriminate].
    inversion H. constructor; auto.
Qed.

Lemma int_range_holds_bool (code : string) (lo hi : Z) :
  int_range code = Some (lo, hi) -> lo <= 0 /\ 1 <= hi.
Proof.
  unfold int_range.
  repeat match goal with |- context [code == ?k] => destruct (code == k) end;
    intros H; inversion H; lia.
Qed.

Lemma array_item_stored_as (code : string) (v item : value) :
  array_item code v = Ret item -> stored_as code v item.
Proof.
  unfold array_item, stored_as. destruct (int_range code) as [[lo hi]|] eqn:Er.
  - apply int_range_holds_bool in Er.
    destruct v; try discriminate.
    + destruct ((lo <=? n) && (n <=? hi)) eqn:E; [|discriminate].
      intros H; inversion H. exists n. apply andb_true_iff in E.
      destruct E as [E1 E2]. apply Z.leb_le in E1, E2.
      cbn. rewrite Z.eqb_refl. repeat split; lia.
    + intros H; inversion H. exists (Z.b2z b).
      cbn. rewrite Z.eqb_refl. destruct b; cbn; repeat split; lia.
  - destruct (code == "f") eqn:Ef; [|destruct (code == "d") eqn:Ed]; try discriminate.
    + destruct (as_double v) as [x|]; cbn; [|discriminate].
      intros H; inversion H. apply String.eqb_eq in Ef. exists x. auto.
    + destruct (as_double v) as [x|]; cbn; [|discriminate].
      intros H; inversion H. apply String.eqb_eq in Ed. exists x. auto.
Qed.

Lemma array_stored_as (code : string) (values items : list value) :
  array code values = Ret items -> Forall2 (stored_as code) values items.
Proof.
  unfold array. destruct (known_typecode code); [|discriminate].
  apply mapM_Forall2. apply array_item_stored_as.
Qed.

(** C1, as amended. When [select_array] returns an array, every input value
    was accepted by the chosen code as [array] accepts it: under an integer
    code each input is an integer ([bool] included) of the code's range and
    the array holds that same integer; under ['d'] the array holds the
    double that [float] makes of the input, and under ['f'] that double
    rounded to binary32. *)
Theorem returned_array_holds_converted_input :
  forall (values : list value) (o : options) (code : string) (items : list value),
    select_array values o = Ret (OArray code items) ->
    Forall2 (stored_as code) values items.
Proof.
  intros values o code items H.
  apply select_array_returns_array in H.
  destruct H as (floats & _ & _ & _ & _ & _ & Ha).
  apply array_stored_as. exact Ha.
Qed.

Lemma returned_array_holds_converted_input_witness :
  Forall2 (stored_as "B") [VInt 1; VBool true; VInt 255] [VInt 1; VInt 1; VInt 255].
Proof.
  apply (returned_array_holds_converted_input
           [VInt 1; VBool true; VInt 255] default_options "B"
           [VInt 1; VInt 1; VInt 255]).
  vm_compute. reflexivity.
Defined.

(** C1, as stated, fails: the integer [2^64 + 1] fits no integer code and
    comes back inside an ['f'] array as the float [2^64]. *)
Lemma large_integer_changes_in_float_array :
  exists items,
    select_array [VInt (2 ^ 64 + 1)] default_options = Ret (OArray "f" items)
    /\ items = [VFloat (F64.of_Z (2 ^ 64))]
    /\ ~ Forall2 (fun v item => same_number v item = true) [VInt (2 ^ 64 + 1)] items.
Proof.
  exists [VFloat (F64.of_Z (2 ^ 64))]. split; [|split].
  - vm_compute. reflexivity.
  - reflexivity.
  - intros H. inversion H as [|v item l l' Hs _]; subst.
    vm_compute in Hs. discriminate.
Qed.

(** C2, on the code. [_scan_stats] receives the float copies of the input,
    so [has_float] is true for the integers 1, 2, 3: with [no_float] they
    come back as a list (and under [strict] the search for a float element
    finds none and ends in [StopIteration]), and [analyze_array] gives the
    reason [float] for the ['B'] array it reports. *)
Theorem has_float_is_true_for_integers :
  (forall x floats, snd (_scan_stats (x :: floats)) = true)
  /\ select_array [VInt 1; VInt 2; VInt 3] (with_no_float default_options false)
     = Ret (OList [VInt 1; VInt 2; VInt 3])
  /\ select_array [VInt 1; VInt 2; VInt 3] (with_no_float default_options true)
     = Raise StopIteration
  /\ exists r,
      analyze_array [VInt 1; VInt 2; VInt 3] default_options = Ret r
      /\ ar_value r = OArray "B" [VInt 1; VInt 2; VInt 3]
      /\ ar_reason r = "float".
Proof.
  split; [reflexivity|].
  split; [vm_compute; reflexivity|].
  split; [vm_compute; reflexivity|].
  eexists. split; [vm_compute; reflexivity|].
  split; reflexivity.
Qed.

(** C3, on the code. For [1, 2, 3.5] with [no_float] and [strict] the error
    names the value [3.5] and the message [integers only], but its index is
    the constant 0, not the position 2 of that value. *)
Theorem strict_no_float_error_has_index_zero :
  select_array [VInt 1; VInt 2; VFloat float_3_5] (with_no_float default_options true)
  = Raise (SelectionError 0 (VFloat float_3_5) "integers only")
  /\ nth_error [VInt 1; VInt 2; VFloat float_3_5] 2 = Some (VFloat float_3_5)
  /\ nth_error [VInt 1; VInt 2; VFloat float_3_5] 0 = Some (VInt 1).
Proof.
  split; [vm_compute; reflexivity|]. split; reflexivity.
Qed.

(** C4, on the code. A complex number passes [_is_all_numeric], and
    [float] then raises [TypeError] out of [select_array], also without
    [strict]; in the same way an integer beyond the doubles, here [10^400],
    makes [float] raise [OverflowError]. *)
Theorem complex_input_raises_type_error :
  strict default_options = false
  /\ _is_all_numeric [VComplex float_3_5 float_3_5] = true
  /\ select_array [VComplex float_3_5 float_3_5] default_options = Raise TypeError
  /\ select_array [VInt (10 ^ 400)] default_options = Raise OverflowError.
Proof.
  split; [reflexivity|]. split; [reflexivity|]. split; [reflexivity|].
  vm_compute. reflexivity.
Qed.

(** ** Total fallback *)




(** C5, on the code. For [0.5, 1e40] with [max_type='f'] and [strict] no
    candidate accepts the input: the integer codes reject the floats, and
    float-32, the last candidate, is passed over because 1e40 lies beyond
    its range. The error that follows names index 0 and the value 0.5
    against ['f'], although float-32 holds 0.5 exactly and the value beyond
    float-32 is 1e40, at index 1: [array('f', [1e40])] does not raise (it
    stores [inf]), so the search for the first violating value finds none
    and the [raise] after the loop names the first value of the input. The
    same [raise] is reached whenever the bounds leave no candidate: for [1]
    with [min_type='d'] and [max_type='b'] the error names the value 1
    against ['d'], which holds 1. *)
Theorem strict_fallback_error_names_a_value_that_fits :
  let values := [VFloat float_0_5; VFloat float_1e40] in
  let floats := [float_0_5; float_1e40] in
  mapM py_float values = Ret floats
  /\ guarded_candidates strict_up_to_float32 floats
     = ["B"; "b"; "H"; "h"; "I"; "i"; "Q"; "q"; "f"]
  /\ Forall (fun c => ~ accepts floats c values)
            (guarded_candidates strict_up_to_float32 floats)
  /\ select_array values strict_up_to_float32
     = Raise (SelectionError 0 (VFloat float_0_5) "f")
  /\ array "f" [VFloat float_0_5] = Ret [VFloat float_0_5]
  /\ nth_error values 1 = Some (VFloat float_1e40)
  /\ F64.gt (SFabs float_1e40) F32_MAX = true
  /\ array "f" [VFloat float_1e40] = Ret [VFloat (S754_infinity false)]
  /\ guarded_candidates strict_inverted_bounds [F64.of_Z 1] = []
  /\ select_array [VInt 1] strict_inverted_bounds = Raise (SelectionError 0 (VInt 1) "d")
  /\ array "d" [VInt 1] = Ret [VFloat (F64.of_Z 1)].
Proof.
  cbv zeta.
  split; [reflexivity|].
  split; [vm_compute; reflexivity|].
  split.
  { repeat constructor; intros [Hguard [items Hi]];
      solve [vm_compute in Hi; discriminate
            | specialize (Hguard eq_refl); vm_compute in Hguard; discriminate]. }
  split; [vm_compute; reflexivity|].
  split; [vm_compute; reflexivity|].
  split; [reflexivity|].
  split; [vm_compute; reflexivity|].
  split; [vm_compute; reflexivity|].
  split; [reflexivity|].
  split; vm_compute; reflexivity.
Qed.



(** ** Rounding to a binary format, in terms of integer arithmetic *)

Module Rounding.

Lemma digits2_pos_size (p : positive) : digits2_pos p = Pos.size p.
Proof. induction p; cbn; congruence. Qed.

Lemma Zdigits2_log2 (m : Z) : 0 < m -> Zdigits2 m = Z.log2 m + 1.
Proof.
  destruct m as [|p|p]; try lia. intros _. cbn [Zdigits2].
  rewrite digits2_pos_size. destruct p; cbn; lia.
Qed.

Lemma digits2_pos_log2 (p : positive) : Z.pos (digits2_pos p) = Z.log2 (Z.pos p) + 1.
Proof. apply (Zdigits2_log2 (Z.pos p)). lia. Qed.

Lemma shr_1_spec (mrs : shr_record) :
  0 <= shr_m mrs ->
  shr_m (shr_1 mrs) = Z.shiftr (shr_m mrs) 1 /\ shr_r (shr_1 mrs) = Z.odd (shr_m mrs).
Proof.
  destruct mrs as [m r s]. cbn [shr_m]. rewrite <- Z.div2_spec.
  destruct m as [|[p|p|]|p]; cbn; intros H; try lia; split; reflexivity.
Qed.

Lemma iter_pos_shr_1 (p : positive) :
  forall mrs : shr_record,
    0 <= shr_m mrs ->
    shr_m (iter_pos shr_1 p mrs) = Z.shiftr (shr_m mrs) (Z.pos p)
    /\ shr_r (iter_pos shr_1 p mrs) = Z.testbit (shr_m mrs) (Z.pos p - 1).
Proof.
  induction p as [p IH|p IH|]; intros mrs Hm; cbn [iter_pos].
  - destruct (shr_1_spec mrs Hm) as [Ha _].
    assert (H1 : 0 <= shr_m (shr_1 mrs)) by (rewrite Ha; apply Z.shiftr_nonneg; exact Hm).
    destruct (IH _ H1) as [Hb _].
    assert (H2 : 0 <= shr_m (iter_pos shr_1 p (shr_1 mrs)))
      by (rewrite Hb; apply Z.shiftr_nonneg; exact H1).
    destruct (IH _ H2) as [Hc Hr]. rewrite Hc, Hr, Hb, Ha. split.
    + rewrite !Z.shiftr_shiftr by lia. f_equal. lia.
    + rewrite Z.shiftr_shiftr, Z.shiftr_spec by lia. f_equal. lia.
  - destruct (IH _ Hm) as [Hb _].
    assert (H2 : 0 <= shr_m (iter_pos shr_1 p mrs))
      by (rewrite Hb; apply Z.shiftr_nonneg; exact Hm).
    destruct (IH _ H2) as [Hc Hr]. rewrite Hc, Hr, Hb. split.
    + rewrite Z.shiftr_shiftr by lia. f_equal. lia.
    + rewrite Z.shiftr_spec by lia. f_equal. lia.
  - destruct (shr_1_spec mrs Hm) as [Ha Hr]. rewrite Ha, Hr. split; [reflexivity|].
    symmetry. apply Z.bit0_odd.
Qed.

Section Format.

Variables prec emax : Z.

(** One [shr_fexp] on an exact mantissa: the exponent moves up to the
    format's, the mantissa is shifted right accordingly, and the round bit,
    when set, is the highest bit shifted out. *)
Lemma shr_fexp_exact (m e : Z) :
  0 <= m ->
  let e' := Z.max e (fexp prec emax (Zdigits2 m + e)) in
  exists mrs,
    shr_fexp prec emax m e loc_Exact = (mrs, e')
    /\ shr_m mrs = Z.shiftr m (e' - e)
    /\ (shr_r mrs = true -> e < e' /\ Z.testbit m (e' - e - 1) = true).
Proof.
  intros Hm e'. unfold shr_fexp, shr. cbn [shr_record_of_loc].
  destruct (fexp prec emax (Zdigits2 m + e) - e) as [|p|p] eqn:E.
  - exists {| shr_m := m; shr_r := false; shr_s := false |}.
    replace e' with e by (unfold e'; lia). rewrite Z.sub_diag.
    repeat split; discriminate.
  - destruct (iter_pos_shr_1 p {| shr_m := m; shr_r := false; shr_s := false |} Hm)
      as [H1 H2]. cbn [shr_m] in H1, H2.
    eexists. split; [|split].
    + f_equal. unfold e'. lia.
    + rewrite H1. f_equal. unfold e'. lia.
    + rewrite H2. intros Ht. split; [unfold e'; lia|].
      rewrite <- Ht. f_equal. unfold e'. lia.
  - exists {| shr_m := m; shr_r := false; shr_s := false |}.
    replace e' with e by (unfold e'; lia). rewrite Z.sub_diag.
    repeat split; discriminate.
Qed.

(** [binary_round_aux] on an exact positive mantissa. *)
Lemma binary_round_aux_exact (s : bool) (m e : Z) :
  0 < m ->
  let e1 := Z.max e (fexp prec emax (Zdigits2 m + e)) in
  let m0 := Z.shiftr m (e1 - e) in
  exists m1,
    (m1 = m0 \/ (m1 = m0 + 1 /\ e < e1 /\ Z.testbit m (e1 - e - 1) = true))
    /\ let e2 := Z.max e1 (fexp prec emax (Zdigits2 m1 + e1)) in
       binary_round_aux prec emax s m e loc_Exact =
       match Z.shiftr m1 (e2 - e1) with
       | Z0 => S754_zero s
       | Z.pos m2 => if e2 <=? emax - prec then S754_finite s m2 e2 else S754_infinity s
       | Z.neg _ => S754_nan
       end.
Proof.
  intros Hm e1 m0. unfold binary_round_aux.
  destruct (shr_fexp_exact m e) as (mrs & E1 & Hs & Hr); [lia|].
  fold e1 in E1, Hs, Hr. rewrite E1. fold m0 in Hs.
  set (m1 := round_nearest_even (shr_m mrs) (loc_of_shr_record mrs)).
  assert (H0 : 0 <= m0) by (apply Z.shiftr_nonneg; lia).
  assert (H1 : m1 = m0 \/ (m1 = m0 + 1 /\ e < e1 /\ Z.testbit m (e1 - e - 1) = true)).
  { unfold m1. destruct mrs as [mm r ss]. cbn [shr_m shr_r] in *. subst mm.
    destruct r, ss; cbn [loc_of_shr_record round_nearest_even]; auto.
    destruct (Z.even m0); auto. }
  exists m1. split; [exact H1|]. cbv zeta.
  destruct (shr_fexp_exact m1 e1) as (mrs2 & E2 & Hs2 & _); [lia|].
  rewrite E2, Hs2. reflexivity.
Qed.

Hypothesis prec_pos : 1 <= prec.

(** A finite result has at most [prec] digits and an exponent of the format. *)
Lemma binary_round_aux_finite (s : bool) (m e : Z) (s' : bool) (m' : positive) (e' : Z) :
  0 < m ->
  binary_round_aux prec emax s m e loc_Exact = S754_finite s' m' e' ->
  s' = s /\ Z.pos (digits2_pos m') <= prec /\ emin prec emax <= e' <= emax - prec.
Proof.
  intros Hm.
  destruct (binary_round_aux_exact s m e Hm) as (m1 & H1 & ->).
  cbv zeta.
  set (e1 := Z.max e (fexp prec emax (Zdigits2 m + e))) in *.
  set (e2 := Z.max e1 (fexp prec emax (Zdigits2 m1 + e1))).
  assert (H0 : 0 <= Z.shiftr m (e1 - e)) by (apply Z.shiftr_nonneg; lia).
  destruct (Z.shiftr m1 (e2 - e1)) as [|m2|m2] eqn:E2; try discriminate.
  destruct (e2 <=? emax - prec) eqn:Ee; [|discriminate].
  intros H; inversion H; subst s' m' e'. apply Z.leb_le in Ee.
  split; [reflexivity|].
  assert (Hm1 : 0 < m1).
  { destruct (Z.eq_dec m1 0) as [->|]; [rewrite Z.shiftr_0_l in E2; discriminate|lia]. }
  split.
  - rewrite digits2_pos_log2, <- E2, Z.log2_shiftr by exact Hm1.
    subst e2. rewrite (Zdigits2_log2 m1 Hm1) in *. unfold fexp in *. lia.
  - split; [|exact Ee]. subst e2. unfold fexp. lia.
Qed.

End Format.

End Rounding.

(** ** The order of floats *)

Module FloatOrder.

Lemma SFltb_lt_by_key (x y : spec_float) : SFltb x y = true <-> lt_by_key x y.
Proof.
  unfold SFltb, lt_by_key.
  destruct x as [[]|[]| |[] m e], y as [[]|[]| |[] m' e'];
    cbn; try (split; [discriminate|lia]); try (split; [lia|reflexivity]);
    try (split; [intros _; lia|reflexivity]).
  - destruct (Z.compare_spec e e'); fold (Pos.compare m m');
      try destruct (Pos.compare_spec m m'); cbn; split; try discriminate; try reflexivity; lia.
  - destruct (Z.compare_spec e e'); fold (Pos.compare m m');
      try destruct (Pos.compare_spec m m'); cbn; split; try discriminate; try reflexivity; lia.
Qed.

Lemma SFltb_false_iff (x y : spec_float) : SFltb x y = false <-> ~ lt_by_key x y.
Proof.
  rewrite <- SFltb_lt_by_key. destruct (SFltb x y); split; congruence.
Qed.

Lemma SFltb_trans (a b c : spec_float) :
  SFltb a b = true -> SFltb b c = true -> SFltb a c = true.
Proof.
  rewrite !SFltb_lt_by_key. unfold lt_by_key.
  destruct (float_key a) as [[[a1 a2] a3]|], (float_key b) as [[[b1 b2] b3]|],
    (float_key c) as [[[c1 c2] c3]|]; cbn; lia.
Qed.

(** [a < b] and [not (c < b)] give [a < c] when [c] is a number. *)
Lemma SFltb_not_lt_trans (a b c : spec_float) :
  c <> S754_nan -> SFltb a b = true -> SFltb c b = false -> SFltb a c = true.
Proof.
  rewrite SFltb_false_iff, !SFltb_lt_by_key. unfold lt_by_key. intros Hc.
  assert (Hk : float_key c <> None) by (destruct c as [[]|[]| |[] ? ?]; cbn; congruence).
  destruct (float_key a) as [[[a1 a2] a3]|], (float_key b) as [[[b1 b2] b3]|],
    (float_key c) as [[[c1 c2] c3]|]; cbn; try congruence; lia.
Qed.

(** [b < a] and [not (b < c)] give [c < a] when [c] is a number. *)
Lemma SFltb_not_gt_trans (a b c : spec_float) :
  c <> S754_nan -> SFltb b a = true -> SFltb b c = false -> SFltb c a = true.
Proof.
  rewrite SFltb_false_iff, !SFltb_lt_by_key. unfold lt_by_key. intros Hc.
  assert (Hk : float_key c <> None) by (destruct c as [[]|[]| |[] ? ?]; cbn; congruence).
  destruct (float_key a) as [[[a1 a2] a3]|], (float_key b) as [[[b1 b2] b3]|],
    (float_key c) as [[[c1 c2] c3]|]; cbn; try congruence; lia.
Qed.

Lemma SFltb_nan_l (x : spec_float) : SFltb S754_nan x = false.
Proof. reflexivity. Qed.

Lemma SFltb_nan_r (x : spec_float) : SFltb x S754_nan = false.
Proof. destruct x; reflexivity. Qed.

(** [abs(v) > f] is [v > f or v < -f], for a positive finite [f]. *)
Lemma SFltb_abs (m : positive) (e : Z) (v : spec_float) :
  SFltb (S754_finite false m e) (SFabs v)
  = SFltb (S754_finite false m e) v || SFltb v (S754_finite true m e).
Proof.
  destruct v as [[]|[]| |[] m' e']; try reflexivity.
  - cbn [SFabs]. apply Bool.eq_iff_eq_true.
    rewrite orb_true_iff, !SFltb_lt_by_key. unfold lt_by_key. cbn. lia.
  - cbn [SFabs]. symmetry. apply orb_false_r.
Qed.

End FloatOrder.

(** ** Doubles within the range of float-32 *)

Module F64Facts.

Import Rounding FloatOrder.

Lemma F32_MAX_eq : F32_MAX = S754_finite false 9007198806847480 75.
Proof. reflexivity. Qed.

Lemma F32_MAX_nearest_double : F32_MAX = F64.of_Z (34028235 * 10 ^ 31).
Proof. vm_compute. reflexivity. Qed.

Lemma float_3_5_nearest_double : float_3_5 = binary_normalize F64.prec F64.emax 7 (-1) false.
Proof. vm_compute. reflexivity. Qed.

Lemma pos_iter_xO (m d : positive) : Z.pos (Pos.iter xO m d) = Z.pos m * 2 ^ Z.pos d.
Proof.
  apply (Pos.iter_ind _ xO m (fun p a => Z.pos a = Z.pos m * 2 ^ Z.pos p)).
  - lia.
  - intros p a Ha. rewrite Pos2Z.inj_succ, Z.pow_succ_r by lia.
    rewrite Pos2Z.inj_xO, Ha. ring.
Qed.

Lemma binary_round_eq (prec emax : Z) (s : bool) (m : positive) (e : Z) :
  let ez := Z.min e (fexp prec emax (Z.pos (digits2_pos m) + e)) in
  binary_round prec emax s m e
  = binary_round_aux prec emax s (Z.pos m * 2 ^ (e - ez)) ez loc_Exact.
Proof.
  intros ez. unfold binary_round, shl_align.
  destruct (fexp prec emax (Z.pos (digits2_pos m) + e) - e) as [|d|d] eqn:E.
  - replace ez with e by (unfold ez; lia). rewrite Z.sub_diag.
    f_equal. lia.
  - replace ez with e by (unfold ez; lia). rewrite Z.sub_diag.
    f_equal. lia.
  - replace ez with (fexp prec emax (Z.pos (digits2_pos m) + e)) by (unfold ez; lia).
    rewrite pos_iter_xO. f_equal. f_equal. f_equal. lia.
Qed.

Lemma Zdigits2_shiftr (m n : Z) :
  0 < m -> 0 <= n -> Zdigits2 (Z.shiftr m n) = Z.max 0 (Zdigits2 m - n).
Proof.
  intros Hm Hn. rewrite (Zdigits2_log2 m Hm).
  destruct (Z.le_gt_cases n (Z.log2 m)) as [H|H].
  - assert (H0 : 0 < Z.shiftr m n).
    { assert (0 <= Z.shiftr m n) by (apply Z.shiftr_nonneg; lia).
      assert (Z.shiftr m n <> 0) by (rewrite Z.shiftr_eq_0_iff; lia).
      lia. }
    rewrite (Zdigits2_log2 _ H0), Z.log2_shiftr by exact Hm. lia.
  - rewrite Z.shiftr_eq_0 by lia. cbn. lia.
Qed.

Lemma Zdigits2_succ (m : Z) : 0 <= m -> Zdigits2 (m + 1) <= Zdigits2 m + 1.
Proof.
  intros Hm. destruct (Z.eq_dec m 0) as [->|Hn]; [cbn; lia|].
  rewrite !Zdigits2_log2 by lia. pose proof (Z.log2_succ_le m). unfold Z.succ in *. lia.
Qed.

Lemma Zdigits2_mul_pow2 (m k : Z) :
  0 < m -> 0 <= k -> Zdigits2 (m * 2 ^ k) = Zdigits2 m + k.
Proof.
  intros Hm Hk. rewrite !Zdigits2_log2, Z.log2_mul_pow2 by nia. lia.
Qed.

Lemma Zdigits2_lt_pow2 (m k : Z) : 0 <= m -> 0 <= k -> m < 2 ^ k -> Zdigits2 m <= k.
Proof.
  intros Hm Hk H. destruct (Z.eq_dec m 0) as [->|Hn]; [cbn; lia|].
  rewrite Zdigits2_log2 by lia. apply Z.log2_lt_pow2 in H; lia.
Qed.

(** Rounding to float-32 does not overflow below the bound [F32_MAX]. *)
Lemma to_f32_fits (s : bool) (m : positive) (e : Z) :
  Z.pos (digits2_pos m) <= 53 ->
  e < 75 \/ (e = 75 /\ Z.pos m <= 9007198806847480) ->
  finite_f32 (F64.to_f32 (S754_finite s m e)).
Proof.
  intros HD He.
  assert (Hto : F64.to_f32 (S754_finite s m e) = binary_round 24 128 s m e)
    by (destruct s; reflexivity).
  rewrite Hto, binary_round_eq. cbv zeta.
  set (D := Z.pos (digits2_pos m)) in *.
  set (ez := Z.min e (fexp 24 128 (D + e))).
  set (M := Z.pos m * 2 ^ (e - ez)).
  assert (Hez : 0 <= e - ez) by (unfold ez; lia).
  assert (HM : 0 < M) by (unfold M; nia).
  assert (HdM : Zdigits2 M + ez = D + e).
  { unfold M. rewrite Zdigits2_mul_pow2 by lia. cbn [Zdigits2]. fold D. lia. }
  destruct (binary_round_aux 24 128 s M ez loc_Exact) as [s'|s'| |s' m' e'] eqn:R;
    cbn [finite_f32]; trivial.
  - (* an infinity is excluded by the exponent bound *)
    destruct (binary_round_aux_exact 24 128 s M ez HM) as (m1 & H1 & Hr).
    cbv zeta in Hr. rewrite R in Hr. rewrite HdM in *.
    set (e1 := Z.max ez (fexp 24 128 (D + e))) in *.
    set (m0 := Z.shiftr M (e1 - ez)) in *.
    assert (He1 : 0 <= e1 - ez) by (unfold e1; lia).
    assert (Hm0 : 0 <= m0) by (apply Z.shiftr_nonneg; lia).
    assert (Hd0 : Zdigits2 m0 + e1 = Z.max e1 (D + e)).
    { unfold m0. rewrite Zdigits2_shiftr by lia. lia. }
    assert (Hd1 : Zdigits2 m1 + e1 <= 128).
    { destruct H1 as [->|(-> & Hlt & Hbit)].
      - rewrite Hd0. unfold e1, ez, fexp, emin. lia.
      - pose proof (Zdigits2_succ m0 Hm0) as Hsucc.
        destruct (Z.eq_dec (D + e) 128) as [H128|H128].
        + assert (HD53 : D = 53) by lia. assert (He75 : e = 75) by lia.
          assert (Hez75 : ez = 75) by (unfold ez, fexp, emin; lia).
          assert (He104 : e1 = 104) by (unfold e1, fexp, emin; lia).
          assert (HMm : M = Z.pos m) by (unfold M; rewrite He75, Hez75; cbn; lia).
          assert (Hlt24 : m0 + 1 < 2 ^ 24).
          { rewrite He104, Hez75, HMm in Hbit.
            apply Z.testbit_true in Hbit; [|lia].
            unfold m0. rewrite He104, Hez75, HMm.
            rewrite Z.shiftr_div_pow2 by lia.
            change (2 ^ (104 - 75 - 1)) with 268435456 in Hbit.
            change (2 ^ (104 - 75)) with 536870912.
            change (2 ^ 24) with 16777216.
            assert (Hq : Z.pos m / 268435456 <= 9007198806847480 / 268435456)
              by (apply Z.div_le_mono; lia).
            change (9007198806847480 / 268435456) with 33554430 in Hq.
            change 536870912 with (268435456 * 2).
            rewrite <- Z.div_div by lia.
            revert Hbit Hq. generalize (Z.pos m / 268435456). clear. intros q Hbit Hq.
            pose proof (Z.div_mod q 2). lia. }
          apply Zdigits2_lt_pow2 in Hlt24; lia.
        + unfold e1, ez, fexp, emin in *. lia. }
    destruct (Z.shiftr m1 _) as [|m2|m2]; try discriminate.
    match type of Hr with context [?a <=? ?b] => destruct (Z.leb_spec a b) as [_|Hbad] end;
      [discriminate|].
    unfold fexp, emin in Hbad. unfold e1, ez, fexp, emin in *. lia.
  - apply binary_round_aux_finite in R; [|lia|exact HM].
    unfold emin in R. lia.
Qed.

(** Read back as a double, a finite float-32 is within the bound. *)
Lemma of_f32_in_range (y : spec_float) :
  finite_f32 y -> F64.gt (SFabs (F64.of_f32 y)) F32_MAX = false.
Proof.
  rewrite F32_MAX_eq. unfold F64.gt.
  destruct y as [s|s| |s m e]; cbn [finite_f32 F64.of_f32]; try reflexivity; try tauto.
  intros [HD He].
  assert (Hof : binary_normalize F64.prec F64.emax (cond_Zopp s (Z.pos m)) e s
                = binary_round 53 1024 s m e) by (destruct s; reflexivity).
  rewrite Hof, binary_round_eq. cbv zeta.
  set (D := Z.pos (digits2_pos m)) in *.
  assert (HD1 : 1 <= D) by (unfold D; lia).
  replace (Z.min e (fexp 53 1024 (D + e))) with (D + e - 53)
    by (unfold fexp, emin; lia).
  set (E := D + e - 53).
  set (M := Z.pos m * 2 ^ (e - E)).
  assert (HM : 0 < M) by (unfold M, E; nia).
  assert (HdM : Zdigits2 M = 53).
  { unfold M. rewrite Zdigits2_mul_pow2 by (unfold E; lia). cbn [Zdigits2]. fold D.
    unfold E. lia. }
  assert (HMb : E = 75 -> M <= 9007198806847480).
  { intros HE75. assert (D = 24 /\ e = 104) as [HD24 He104] by (unfold E in HE75; lia).
    assert (Hm24 : Z.pos m < 2 ^ 24).
    { apply Z.log2_lt_pow2; [lia|]. pose proof (digits2_pos_log2 m) as Hl.
      fold D in Hl. lia. }
    unfold M. replace (e - E) with 29 by lia.
    change (2 ^ 24) with 16777216 in Hm24. change (2 ^ 29) with 536870912. lia. }
  assert (HE971 : E <= 1024 - 53) by (unfold E; lia).
  assert (HE75 : E <= 75) by (unfold E; lia).
  assert (HE : Z.max E (fexp 53 1024 (53 + E)) = E) by (unfold fexp, emin, E; lia).
  clearbody M E.
  destruct (binary_round_aux_exact 53 1024 s M E HM) as (m1 & H1 & ->).
  cbv zeta. rewrite HdM in H1 |- *. rewrite HE in H1 |- *.
  rewrite Z.sub_diag in H1. change (Z.shiftr M 0) with M in H1.
  destruct H1 as [->|(_ & Hlt & _)]; [|lia].
  rewrite HdM, HE, Z.sub_diag. change (Z.shiftr M 0) with M.
  destruct M as [|M'|M']; try lia.
  destruct (Z.leb_spec E (1024 - 53)) as [_|Hbad]; [|lia].
  cbn [SFabs]. apply SFltb_false_iff. unfold lt_by_key. cbn. lia.
Qed.

(** [abs(x) <= F32_MAX] is kept by the rounding to float-32. *)
Lemma round_f32_in_range (x : spec_float) :
  double_mantissa x ->
  F64.gt (SFabs x) F32_MAX = false ->
  F64.gt (SFabs (F64.round_f32 x)) F32_MAX = false.
Proof.
  intros Hx Hr. unfold F64.round_f32.
  destruct x as [s|s| |s m e]; try exact Hr.
  apply of_f32_in_range. apply to_f32_fits; [exact Hx|].
  rewrite F32_MAX_eq in Hr. unfold F64.gt in Hr. cbn [SFabs] in Hr.
  apply SFltb_false_iff in Hr. unfold lt_by_key in Hr. cbn in Hr. lia.
Qed.

(** The double of an integer has a mantissa of at most 53 bits. *)
Lemma of_Z_double_mantissa (n : Z) : double_mantissa (F64.of_Z n).
Proof.
  unfold F64.of_Z, binary_normalize.
  destruct n as [|p|p]; cbn [double_mantissa]; trivial.
  - rewrite binary_round_eq. cbv zeta.
    destruct (binary_round_aux _ _ _ _ _ _) eqn:R; cbn [double_mantissa]; trivial.
    apply binary_round_aux_finite in R; [unfold F64.prec in *; lia|unfold F64.prec; lia|nia].
  - rewrite binary_round_eq. cbv zeta.
    destruct (binary_round_aux _ _ _ _ _ _) eqn:R; cbn [double_mantissa]; trivial.
    apply binary_round_aux_finite in R; [unfold F64.prec in *; lia|unfold F64.prec; lia|nia].
Qed.

End F64Facts.

(** ** Minimum and maximum against the float-32 bound *)

Module MinMax.

Import FloatOrder F64Facts.

Lemma fold_step_in (step : spec_float -> spec_float -> spec_float) :
  (forall cur item, step cur item = cur \/ step cur item = item) ->
  forall rest cur, In (fold_left step rest cur) (cur :: rest).
Proof.
  intros Hstep rest. induction rest as [|item rest IH]; intros cur; cbn [fold_left].
  - left. reflexivity.
  - destruct (IH (step cur item)) as [H|H].
    + rewrite <- H. destruct (Hstep cur item) as [E|E]; rewrite E; cbn; auto.
    + cbn. auto.
Qed.

Lemma py_max_in (floats : list spec_float) (m : spec_float) :
  py_max floats = Some m -> In m floats.
Proof.
  destruct floats as [|v rest]; [discriminate|]. cbn. intros H; inversion H.
  apply (fold_step_in max_step). intros cur item. unfold max_step.
  destruct (F64.gt item cur); auto.
Qed.

Lemma py_min_in (floats : list spec_float) (m : spec_float) :
  py_min floats = Some m -> In m floats.
Proof.
  destruct floats as [|v rest]; [discriminate|]. cbn. intros H; inversion H.
  apply (fold_step_in min_step). intros cur item. unfold min_step.
  destruct (F64.lt item cur); auto.
Qed.

(** Once the running extremum is NaN it stays NaN. *)
Lemma fold_max_nan (rest : list spec_float) : fold_left max_step rest S754_nan = S754_nan.
Proof. induction rest as [|item rest IH]; [reflexivity|exact IH]. Qed.

Lemma fold_min_nan (rest : list spec_float) : fold_left min_step rest S754_nan = S754_nan.
Proof.
  induction rest as [|item rest IH]; [reflexivity|]. cbn [fold_left].
  unfold min_step at 2, F64.lt. rewrite SFltb_nan_r. exact IH.
Qed.

(** Starting from a number, [max] is above a bound as soon as one item is. *)
Lemma fold_max_above (f : spec_float) (rest : list spec_float) :
  forall cur,
    cur <> S754_nan ->
    SFltb f cur = true \/ (exists x, In x rest /\ SFltb f x = true) ->
    SFltb f (fold_left max_step rest cur) = true.
Proof.
  induction rest as [|item rest IH]; intros cur Hc H; cbn [fold_left].
  - destruct H as [H|(x & [] & _)]. exact H.
  - apply IH.
    + unfold max_step, F64.gt. destruct (SFltb cur item) eqn:E; [|exact Hc].
      intros ->. rewrite SFltb_nan_r in E. discriminate.
    + unfold max_step, F64.gt. destruct H as [H|(x & [<-|Hx] & Hf)].
      * left. destruct (SFltb cur item) eqn:E; [|exact H].
        exact (SFltb_trans _ _ _ H E).
      * left. destruct (SFltb cur item) eqn:E; [exact Hf|].
        exact (SFltb_not_lt_trans _ _ _ Hc Hf E).
      * right. exists x. auto.
Qed.

(** Starting from a number, [min] is below a bound as soon as one item is. *)
Lemma fold_min_below (g : spec_float) (rest : list spec_float) :
  forall cur,
    cur <> S754_nan ->
    SFltb cur g = true \/ (exists x, In x rest /\ SFltb x g = true) ->
    SFltb (fold_left min_step rest cur) g = true.
Proof.
  induction rest as [|item rest IH]; intros cur Hc H; cbn [fold_left].
  - destruct H as [H|(x & [] & _)]. exact H.
  - apply IH.
    + unfold min_step, F64.lt. destruct (SFltb item cur) eqn:E; [|exact Hc].
      intros ->. discriminate.
    + unfold min_step, F64.lt. destruct H as [H|(x & [<-|Hx] & Hf)].
      * left. destruct (SFltb item cur) eqn:E; [|exact H].
        exact (SFltb_trans _ _ _ E H).
      * left. destruct (SFltb item cur) eqn:E; [exact Hf|].
        exact (SFltb_not_gt_trans _ _ _ Hc Hf E).
      * right. exists x. auto.
Qed.

(** When the first float is a number and neither [min] nor [max] leaves the
    float-32 range, no item does. *)
Lemma all_in_f32_range (v : spec_float) (rest : list spec_float) :
  v <> S754_nan ->
  out_of_f32_range (py_min (v :: rest)) (py_max (v :: rest)) = false ->
  Forall in_f32_range (v :: rest).
Proof.
  intros Hv H. cbn [py_min py_max out_of_f32_range] in H.
  apply orb_false_iff in H. destruct H as [Hmax Hmin].
  unfold F64.gt in Hmax, Hmin. rewrite F32_MAX_eq, SFltb_abs in Hmax, Hmin.
  apply orb_false_iff in Hmax, Hmin. destruct Hmax as [Hmax _], Hmin as [_ Hmin].
  apply Forall_forall. intros x Hx. unfold in_f32_range, F64.gt.
  rewrite F32_MAX_eq, SFltb_abs. apply orb_false_iff. split.
  - destruct (SFltb (S754_finite false 9007198806847480 75) x) eqn:E; [|reflexivity].
    rewrite <- Hmax. symmetry. apply (fold_max_above _ rest v Hv).
    destruct Hx as [<-|Hx]; [left; exact E|right; eauto].
  - destruct (SFltb x (S754_finite true 9007198806847480 75)) eqn:E; [|reflexivity].
    rewrite <- Hmin. symmetry. apply (fold_min_below _ rest v Hv).
    destruct Hx as [<-|Hx]; [left; exact E|right; eauto].
Qed.

(** The float-32 guard gives the same answer on the float-32 roundings of
    data that passed it. *)
Lemma rounded_stays_in_f32_range (floats : list spec_float) :
  Forall double_mantissa floats ->
  out_of_f32_range (py_min floats) (py_max floats) = false ->
  out_of_f32_range (py_min (map F64.round_f32 floats))
                   (py_max (map F64.round_f32 floats)) = false.
Proof.
  intros Hwf H. destruct floats as [|v rest]; [reflexivity|].
  assert (Hdec : v = S754_nan \/ v <> S754_nan)
    by (destruct v; ((left; reflexivity) || (right; discriminate))).
  destruct Hdec as [->|Hv].
  - (* a NaN first: both extrema are NaN *)
    cbn [map py_min py_max]. change (F64.round_f32 S754_nan) with S754_nan.
    fold max_step min_step. rewrite fold_max_nan, fold_min_nan.
    unfold out_of_f32_range, F64.gt. cbn [SFabs]. rewrite SFltb_nan_r. reflexivity.
  - assert (Hall : Forall in_f32_range (map F64.round_f32 (v :: rest))).
    { apply Forall_map. pose proof (all_in_f32_range v rest Hv H) as Hin.
      rewrite Forall_forall in *. intros x Hx.
      apply round_f32_in_range; auto. apply Hin; exact Hx. }
    rewrite Forall_forall in Hall.
    destruct (py_max (map F64.round_f32 (v :: rest))) as [vmax|] eqn:Emax; [|reflexivity].
    destruct (py_min (map F64.round_f32 (v :: rest))) as [vmin|] eqn:Emin; [|discriminate].
    apply py_max_in in Emax. apply py_min_in in Emin.
    unfold out_of_f32_range. apply orb_false_iff. split.
    + exact (Hall _ Emax).
    + exact (Hall _ Emin).
Qed.

End MinMax.

(** ** Selecting again from the items of a returned array *)

Import F64Facts MinMax.

Lemma valid_double_mantissa (x : spec_float) :
  valid_binary F64.prec F64.emax x = true -> double_mantissa x.
Proof.
  destruct x as [s|s| |s m e]; cbn [valid_binary double_mantissa]; trivial.
  unfold bounded, canonical_mantissa, fexp, emin, F64.prec, F64.emax.
  intros H. apply andb_true_iff in H. destruct H as [H _].
  apply Z.eqb_eq in H. lia.
Qed.

Lemma py_float_double_mantissa (v : value) (x : spec_float) :
  valid_value v -> py_float v = Ret x -> double_mantissa x.
Proof.
  assert (Hint : forall n, int_to_float n = Ret x -> double_mantissa x).
  { intros n. unfold int_to_float. pose proof (of_Z_double_mantissa n) as Hn.
    destruct (F64.of_Z n); intros H; inversion H; subst; exact Hn. }
  destruct v; cbn; intros Hv H; try discriminate; eauto.
  inversion H; subst. apply valid_double_mantissa. exact Hv.
Qed.

Lemma mapM_Forall {A B : Type} (P : A -> Prop) (Q : B -> Prop) (f : A -> result B)
    (l : list A) (bs : list B) :
  (forall a b, P a -> f a = Ret b -> Q b) ->
  Forall P l -> mapM f l = Ret bs -> Forall Q bs.
Proof.
  intros Hf Hl. revert bs. induction Hl as [|a l Ha _ IH]; cbn; intros bs H.
  - inversion H. constructor.
  - destruct (f a) as [b|] eqn:Ea; cbn in H; [|discriminate].
    destruct (mapM f l) as [bs'|]; cbn in H; [|discriminate].
    inversion H. constructor; eauto.
Qed.

Lemma mapM_ext {A B : Type} (f g : A -> result B) (l : list A) :
  (forall a, In a l -> f a = g a) -> mapM f l = mapM g l.
Proof.
  induction l as [|a l IH]; cbn; intros H; [reflexivity|].
  rewrite (H a) by auto. rewrite IH by auto. reflexivity.
Qed.

Lemma as_double_py_float (v : value) :
  isinstance_Number v = true -> as_double v = py_float v.
Proof. destruct v; cbn; intros H; try reflexivity; discriminate. Qed.

Lemma array_item_d (v : value) :
  array_item "d" v = (x <- as_double v ;; Ret (VFloat x)).
Proof. reflexivity. Qed.

Lemma array_item_f (v : value) :
  array_item "f" v = (x <- as_double v ;; Ret (VFloat (F64.round_f32 x))).
Proof. reflexivity. Qed.

(** On input that [float] converts, the two float codes accept everything. *)
Lemma array_float_codes (values : list value) (floats : list spec_float) :
  _is_all_numeric values = true ->
  mapM py_float values = Ret floats ->
  array "d" values = Ret (map VFloat floats)
  /\ array "f" values = Ret (map (fun x => VFloat (F64.round_f32 x)) floats).
Proof.
  change (array "d" values) with (mapM (array_item "d") values).
  change (array "f" values) with (mapM (array_item "f") values).
  revert floats. induction values as [|v values IH]; intros floats Hnum Hf.
  - inversion Hf. split; reflexivity.
  - cbn [_is_all_numeric forallb] in Hnum.
    apply andb_true_iff in Hnum. destruct Hnum as [Hv Hnum].
    cbn [mapM] in Hf |- *. rewrite array_item_d, array_item_f, (as_double_py_float v Hv).
    destruct (py_float v) as [x|]; cbn [bind] in Hf |- *; [|discriminate].
    destruct (mapM py_float values) as [xs|]; cbn [bind] in Hf; [|discriminate].
    inversion Hf; subst. destruct (IH xs Hnum eq_refl) as [-> ->]. split; reflexivity.
Qed.

Lemma mapM_py_float_floats (ys : list spec_float) :
  mapM py_float (map VFloat ys) = Ret ys.
Proof. induction ys as [|y ys IH]; cbn; [|rewrite IH]; reflexivity. Qed.

Lemma all_numeric_floats (ys : list spec_float) : _is_all_numeric (map VFloat ys) = true.
Proof. induction ys as [|y ys IH]; cbn; [reflexivity|exact IH]. Qed.

(** A list of floats is rejected by every code that rejected the input. *)
Lemma array_rejects_floats (c : string) (values : list value)
    (floats ys : list spec_float) (e : exn) :
  _is_all_numeric values = true ->
  mapM py_float values = Ret floats ->
  ys <> [] ->
  array c values = Raise e ->
  exists e', array c (map VFloat ys) = Raise e'.
Proof.
  intros Hnum Hf Hys Ha.
  destruct (array_float_codes values floats Hnum Hf) as [Hd Hfl].
  destruct (c == "f") eqn:Ef; [apply String.eqb_eq in Ef; congruence|].
  destruct (c == "d") eqn:Ed; [apply String.eqb_eq in Ed; congruence|].
  unfold array, known_typecode.
  destruct (int_range c) as [[lo hi]|] eqn:R.
  - destruct ys as [|y ys]; [congruence|]. cbn. unfold array_item at 1. rewrite R.
    cbn. eauto.
  - rewrite Ef, Ed. cbn. eauto.
Qed.

Lemma array_accepts_floats (code : string) (ys : list spec_float) :
  code = "f" \/ code = "d" -> exists items, array code (map VFloat ys) = Ret items.
Proof.
  intros Hc.
  destruct (array_float_codes (map VFloat ys) ys (all_numeric_floats ys)
              (mapM_py_float_floats ys)) as [Hd Hf].
  destruct Hc as [->| ->]; eauto.
Qed.

(** The loop of [select_array] from the items of the float array it chose. *)
Lemma try_candidates_float_rerun (values : list value) (floats ys : list spec_float)
    (code : string) (items : list value) (vmin vmax vmin' vmax' : option spec_float)
    (candidates : list string) :
  _is_all_numeric values = true ->
  mapM py_float values = Ret floats ->
  ys <> [] ->
  code = "f" \/ code = "d" ->
  out_of_f32_range vmin' vmax' = out_of_f32_range vmin vmax ->
  try_candidates true vmin vmax candidates values = Ret (Some (OArray code items)) ->
  exists items',
    try_candidates true vmin' vmax' candidates (map VFloat ys)
    = Ret (Some (OArray code items')).
Proof.
  intros Hnum Hf Hys Hcode Hoor.
  induction candidates as [|c cs IH]; cbn [try_candidates]; [discriminate|].
  rewrite Hoor.
  destruct (((c == "f") || (c == "d")) && true && (c == "f") && out_of_f32_range vmin vmax);
    [exact IH|].
  rewrite !_try_array_eq. cbn [bind].
  destruct (array c values) as [its|e] eqn:Ea.
  - intros H. inversion H; subst c its.
    destruct (array_accepts_floats code ys Hcode) as [items' ->]. eauto.
  - destruct (array_rejects_floats c values floats ys e Hnum Hf Hys Ea) as [e' ->].
    exact IH.
Qed.

(** Float-32 was chosen only if the guard let it through. *)
Lemma try_candidates_f32_in_range (values items : list value)
    (vmin vmax : option spec_float) (candidates : list string) :
  try_candidates true vmin vmax candidates values = Ret (Some (OArray "f" items)) ->
  out_of_f32_range vmin vmax = false.
Proof.
  induction candidates as [|c cs IH]; cbn [try_candidates]; [discriminate|].
  destruct (((c == "f") || (c == "d")) && true && (c == "f") && out_of_f32_range vmin vmax)
    eqn:Es; [exact IH|].
  rewrite _try_array_eq. cbn [bind].
  destruct (array c values) as [its|e]; [|exact IH].
  intros H. inversion H; subst c its. cbn in Es. exact Es.
Qed.

(** Under an integer code the items are the input, with [True] and [False]
    read as 1 and 0: nothing in [select_array] tells them apart. *)
Lemma int_items_behave_as_input (values items : list value) :
  Forall2 (fun v item => exists n, int_value v = Some n /\ item = VInt n) values items ->
  (forall c, array c items = array c values)
  /\ mapM py_float items = mapM py_float values
  /\ _is_all_numeric items = _is_all_numeric values.
Proof.
  intros H.
  assert (Hitem : forall c v n, int_value v = Some n ->
                                array_item c (VInt n) = array_item c v).
  { intros c v n Hv. destruct v; try discriminate; inversion Hv; subst; [reflexivity|].
    unfold array_item. destruct (int_range c) as [[lo hi]|] eqn:R; [|reflexivity].
    apply int_range_holds_bool in R.
    replace ((lo <=? Z.b2z b) && (Z.b2z b <=? hi)) with true; [reflexivity|].
    symmetry. apply andb_true_iff. split; apply Z.leb_le; destruct b; cbn; lia. }
  split; [|split].
  - intros c. unfold array. destruct (known_typecode c); [|reflexivity].
    induction H as [|v item values items (n & Hv & ->) _ IH]; cbn [mapM]; [reflexivity|].
    rewrite (Hitem c v n Hv), IH. reflexivity.
  - induction H as [|v item values items (n & Hv & ->) _ IH]; cbn [mapM]; [reflexivity|].
    rewrite IH. f_equal. destruct v; try discriminate; inversion Hv; reflexivity.
  - unfold _is_all_numeric.
    induction H as [|v item values items (n & Hv & ->) _ IH]; cbn [forallb]; [reflexivity|].
    rewrite IH. f_equal. destruct v; try discriminate; reflexivity.
Qed.

Lemma try_candidates_ext (hf : bool) (vmin vmax : option spec_float)
    (candidates : list string) (values items : list value) :
  (forall c, array c items = array c values) ->
  try_candidates hf vmin vmax candidates items
  = try_candidates hf vmin vmax candidates values.
Proof.
  intros H. induction candidates as [|c cs IH]; cbn [try_candidates]; [reflexivity|].
  rewrite IH. unfold _try_array. rewrite H. reflexivity.
Qed.

Lemma stored_as_int_items (code : string) (r : Z * Z) (values items : list value) :
  int_range code = Some r ->
  Forall2 (stored_as code) values items ->
  Forall2 (fun v item => exists n, int_value v = Some n /\ item = VInt n) values items.
Proof.
  intros R H. induction H as [|v item values items Hs _ IH]; constructor; [|exact IH].
  unfold stored_as in Hs. rewrite R in Hs. destruct r as [lo hi].
  destruct Hs as (n & Hv & _ & -> & _). eauto.
Qed.

(** C9. When [select_array] returns an array, calling it again with the same
    options on the items of that array returns an array of the same code.
    (The floats of the input are doubles.) *)
Theorem reselecting_the_items_keeps_the_code :
  forall (values : list value) (o : options) (code : string) (items : list value),
    Forall valid_value values ->
    select_array values o = Ret (OArray code items) ->
    exists items', select_array items o = Ret (OArray code items').
Proof.
  intros values o code items Hvalid H.
  destruct (select_array_returns_array _ _ _ _ H)
    as (floats & Hne & Hnum & Hf & Hnf & Hloop & Harr).
  assert (Hfl : floats <> []).
  { apply mapM_length in Hf. destruct floats, values; cbn in Hf; congruence. }
  assert (Hknown : known_typecode code = true).
  { unfold array in Harr. destruct (known_typecode code); [reflexivity|discriminate]. }
  unfold known_typecode in Hknown.
  destruct (int_range code) as [r|] eqn:R.
  - (* an integer code *)
    pose proof (stored_as_int_items code r values items R (array_stored_as _ _ _ Harr)) as HF.
    destruct (int_items_behave_as_input values items HF) as (Ha & Hp & Hn).
    assert (Hine : items <> []) by (destruct HF; congruence).
    exists items.
    rewrite (select_array_numeric items o floats Hine) by congruence.
    rewrite Hnf, (try_candidates_ext _ _ _ _ _ _ Ha), Hloop. reflexivity.
  - apply orb_true_iff in Hknown.
    destruct (array_float_codes values floats Hnum Hf) as [Hd Hf32].
    destruct Hknown as [Hc|Hc]; apply String.eqb_eq in Hc; subst code.
    + (* float-32 *)
      assert (Hitems : items = map VFloat (map F64.round_f32 floats))
        by (rewrite map_map; congruence).
      pose proof (try_candidates_f32_in_range _ _ _ _ _ Hloop) as Hoor.
      assert (Hwf : Forall double_mantissa floats)
        by (exact (mapM_Forall _ _ _ _ _ py_float_double_mantissa Hvalid Hf)).
      pose proof (rounded_stays_in_f32_range floats Hwf Hoor) as Hoor'.
      assert (Hys : map F64.round_f32 floats <> [])
        by (destruct floats; [congruence|discriminate]).
      assert (Hg : guarded_candidates o (map F64.round_f32 floats)
                   = guarded_candidates o floats)
        by (unfold guarded_candidates; rewrite Hoor, Hoor'; reflexivity).
      destruct (try_candidates_float_rerun values floats (map F64.round_f32 floats) "f"
                  items _ _
                  (py_min (map F64.round_f32 floats)) (py_max (map F64.round_f32 floats))
                  _ Hnum Hf Hys (or_introl eq_refl) (eq_trans Hoor' (eq_sym Hoor)) Hloop)
        as [items' Hre].
      exists items'. subst items.
      rewrite (select_array_numeric _ o (map F64.round_f32 floats)).
      * rewrite Hnf, Hg, Hre. reflexivity.
      * destruct floats; [congruence|discriminate].
      * apply all_numeric_floats.
      * apply mapM_py_float_floats.
    + (* float-64 *)
      assert (Hitems : items = map VFloat floats) by congruence.
      destruct (try_candidates_float_rerun values floats floats "d" items _ _
                  (py_min floats) (py_max floats) _ Hnum Hf Hfl (or_intror eq_refl)
                  eq_refl Hloop) as [items' Hre].
      exists items'. subst items.
      rewrite (select_array_numeric _ o floats).
      * rewrite Hnf, Hre. reflexivity.
      * destruct floats; [congruence|discriminate].
      * apply all_numeric_floats.
      * apply mapM_py_float_floats.
Qed.

Lemma reselecting_the_items_keeps_the_code_witness :
  exists items',
    select_array [VFloat (F64.of_Z (2 ^ 64)); VFloat float_3_5] default_options
    = Ret (OArray "f" items').
Proof.
  apply (reselecting_the_items_keeps_the_code
           [VInt (2 ^ 64 + 1); VFloat float_3_5] default_options "f"
           [VFloat (F64.of_Z (2 ^ 64)); VFloat float_3_5]).
  - constructor; [exact I|]. constructor; [reflexivity|]. constructor.
  - vm_compute. reflexivity.
Defined.

(** * Further properties of the selector *)

(** ** The shape of a result *)

Lemma array_length (code : string) (values items : list value) :
  array code values = Ret items -> List.length items = List.length values.
Proof.
  unfold array. destruct (known_typecode code); [|discriminate].
  apply mapM_length.
Qed.

(** The three ways [select_array] ends on numeric input. *)
Lemma select_array_numeric_cases (values : list value) (o : options)
    (floats : list spec_float) (r : result output) :
  values <> [] ->
  _is_all_numeric values = true ->
  mapM py_float values = Ret floats ->
  select_array values o = r ->
  (no_float o = true
   /\ r = if strict o
          then match find isinstance_float values with
               | Some offending => Raise (SelectionError 0 offending "integers only")
               | None => Raise StopIteration
               end
          else Ret (OList values))
  \/ (no_float o = false
      /\ exists code items,
          try_candidates true (py_min floats) (py_max floats)
            (guarded_candidates o floats) values = Ret (Some (OArray code items))
          /\ array code values = Ret items
          /\ r = Ret (OArray code items))
  \/ (no_float o = false
      /\ try_candidates true (py_min floats) (py_max floats)
           (guarded_candidates o floats) values = Ret None
      /\ r = if strict o
             then match first_violation (last (guarded_candidates o floats) "d") 0 values with
                  | Some e => Raise e
                  | None =>
                      match values with
                      | v0 :: _ =>
                          Raise (SelectionError 0 v0 (last (guarded_candidates o floats) "d"))
                      | [] => Raise IndexError
                      end
                  end
             else Ret (OList values)).
Proof.
  intros Hne Hnum Hf <-.
  rewrite (select_array_numeric values o floats Hne Hnum Hf).
  destruct (no_float o); [left; split; reflexivity|right].
  destruct (try_candidates_total true (py_min floats) (py_max floats)
              (guarded_candidates o floats) values) as [[out|] E]; rewrite E; cbn [bind].
  - left. split; [reflexivity|].
    destruct (try_candidates_some _ _ _ _ _ _ E) as (code & items & -> & _ & Ha).
    exists code, items. auto.
  - right. split; [reflexivity|]. split; reflexivity.
Qed.

(** A result of [select_array] is the input list or an array that [array]
    built from the whole input. *)
Lemma select_array_result_shape (values : list value) (o : options) (out : output) :
  select_array values o = Ret out ->
  out = OList values
  \/ exists code items, out = OArray code items /\ array code values = Ret items.
Proof.
  intros H.
  destruct values as [|v values]; [inversion H; left; reflexivity|].
  destruct (_is_all_numeric (v :: values)) eqn:Hnum.
  2:{ unfold select_array in H. cbn [List.length Nat.eqb] in H. rewrite Hnum in H.
      inversion H. left. reflexivity. }
  destruct (mapM py_float (v :: values)) as [floats|e] eqn:Hf.
  2:{ unfold select_array in H. cbn [List.length Nat.eqb] in H. rewrite Hnum, Hf in H.
      discriminate. }
  destruct (select_array_numeric_cases (v :: values) o floats _ ltac:(discriminate) Hnum Hf H)
    as [(_ & E)|[(_ & code & items & _ & Ha & E)|(_ & _ & E)]].
  - destruct (strict o); [destruct (find isinstance_float (v :: values)); discriminate|].
    inversion E. left. reflexivity.
  - inversion E. right. eauto.
  - destruct (strict o); [|inversion E; left; reflexivity].
    destruct (first_violation _ 0 (v :: values)); discriminate.
Qed.

(** X1. A list returned by [select_array] is the input itself, and an array
    has as many items as the input. *)
Theorem select_array_returns_input_or_same_length :
  forall (values : list value) (o : options),
    match select_array values o with
    | Ret (OList items) => items = values
    | Ret (OArray code items) => List.length items = List.length values
    | Raise _ => True
    end.
Proof.
  intros values o.
  destruct (select_array values o) as [out|e] eqn:E; [|exact I].
  destruct (select_array_result_shape values o out E) as [->|(code & items & -> & Ha)].
  - reflexivity.
  - exact (array_length _ _ _ Ha).
Qed.

(** X2. With [no_float] set, [select_array] never returns an array: every
    non-empty numeric input counts as float input. *)
Theorem no_float_never_returns_an_array :
  forall (values : list value) (o : options) (code : string) (items : list value),
    no_float o = true -> select_array values o <> Ret (OArray code items).
Proof.
  intros values o code items Hnf H.
  apply select_array_returns_array in H.
  destruct H as (floats & _ & _ & _ & Hnf' & _). congruence.
Qed.

Lemma no_float_never_returns_an_array_witness :
  select_array [VInt 1; VInt 2] (with_no_float default_options false)
  <> Ret (OArray "B" [VInt 1; VInt 2]).
Proof.
  apply (no_float_never_returns_an_array [VInt 1; VInt 2]
           (with_no_float default_options false) "B" [VInt 1; VInt 2]).
  reflexivity.
Defined.

(** ** First fit *)

Lemma try_candidates_first_fit (floats : list spec_float) (candidates : list string)
    (values : list value) (code : string) (items : list value) :
  try_candidates true (py_min floats) (py_max floats) candidates values
  = Ret (Some (OArray code items)) ->
  exists before after,
    candidates = (before ++ code :: after)%list
    /\ Forall (fun c => ~ accepts floats c values) before
    /\ accepts floats code values
    /\ array code values = Ret items.
Proof.
  induction candidates as [|c cs IH]; cbn [try_candidates]; [discriminate|].
  destruct (((c == "f") || (c == "d")) && true && (c == "f")
            && out_of_f32_range (py_min floats) (py_max floats)) eqn:Es.
  - intros H. destruct (IH H) as (before & after & -> & Hb & Ha & Hi).
    exists (c :: before), after. split; [reflexivity|]. split; [|auto].
    constructor; [|exact Hb]. intros [Hf _].
    apply andb_true_iff in Es. destruct Es as [Es Hoor].
    apply andb_true_iff in Es. destruct Es as [_ Ec]. apply String.eqb_eq in Ec.
    rewrite (Hf Ec) in Hoor. discriminate.
  - rewrite _try_array_eq. cbn [bind].
    destruct (array c values) as [its|e] eqn:Ea.
    + intros H. inversion H; subst c its. exists [], cs.
      split; [reflexivity|]. split; [constructor|]. split; [|exact Ea].
      split; [|eauto]. intros ->. cbn in Es. exact Es.
    + intros H. destruct (IH H) as (before & after & -> & Hb & Ha & Hi).
      exists (c :: before), after. split; [reflexivity|]. split; [|auto].
      constructor; [|exact Hb]. intros [_ [its Hits]]. congruence.
Qed.

(** X3. The code [select_array] returns is the first candidate, in the order
    left by the float-32 guard, that accepts the whole input: every candidate
    before it is passed over or rejects some value. *)
Theorem select_array_returns_first_accepting_candidate :
  forall (values : list value) (o : options) (code : string) (items : list value),
    select_array values o = Ret (OArray code items) ->
    exists floats before after,
      mapM py_float values = Ret floats
      /\ guarded_candidates o floats = (before ++ code :: after)%list
      /\ Forall (fun c => ~ accepts floats c values) before
      /\ accepts floats code values
      /\ array code values = Ret items.
Proof.
  intros values o code items H.
  destruct (select_array_returns_array _ _ _ _ H)
    as (floats & _ & _ & Hf & _ & Hloop & _).
  destruct (try_candidates_first_fit _ _ _ _ _ Hloop) as (before & after & ?).
  exists floats, before, after. tauto.
Qed.

Lemma select_array_returns_first_accepting_candidate_witness :
  exists floats before after,
    mapM py_float [VInt 1; VInt 300] = Ret floats
    /\ guarded_candidates default_options floats = (before ++ "H" :: after)%list
    /\ Forall (fun c => ~ accepts floats c [VInt 1; VInt 300]) before
    /\ accepts floats "H" [VInt 1; VInt 300]
    /\ array "H" [VInt 1; VInt 300] = Ret [VInt 1; VInt 300].
Proof.
  apply (select_array_returns_first_accepting_candidate
           [VInt 1; VInt 300] default_options "H" [VInt 1; VInt 300]).
  vm_compute. reflexivity.
Defined.

Lemma try_candidates_finds_accepting (floats : list spec_float) (candidates : list string)
    (values : list value) :
  Exists (fun c => accepts floats c values) candidates ->
  exists code items,
    try_candidates true (py_min floats) (py_max floats) candidates values
    = Ret (Some (OArray code items)).
Proof.
  induction 1 as [c cs [Hf [items Ha]]|c cs _ IH]; cbn [try_candidates].
  - destruct (((c == "f") || (c == "d")) && true && (c == "f")
              && out_of_f32_range (py_min floats) (py_max floats)) eqn:Es.
    + exfalso. apply andb_true_iff in Es. destruct Es as [Es Hoor].
      apply andb_true_iff in Es. destruct Es as [_ Ec]. apply String.eqb_eq in Ec.
      rewrite (Hf Ec) in Hoor. discriminate.
    + rewrite _try_array_eq, Ha. cbn. eauto.
  - destruct (((c == "f") || (c == "d")) && true && (c == "f")
              && out_of_f32_range (py_min floats) (py_max floats)); [exact IH|].
    rewrite _try_array_eq. cbn [bind].
    destruct (array c values); [eauto|exact IH].
Qed.

(** X4. On non-empty numeric input that [float] converts, and without
    [no_float], [select_array] returns an array as soon as one candidate
    accepts the input, whatever [strict] is. *)
Theorem select_array_finds_an_accepting_candidate :
  forall (values : list value) (o : options) (floats : list spec_float),
    values <> [] ->
    _is_all_numeric values = true ->
    mapM py_float values = Ret floats ->
    no_float o = false ->
    Exists (fun c => accepts floats c values) (guarded_candidates o floats) ->
    exists code items, select_array values o = Ret (OArray code items).
Proof.
  intros values o floats Hne Hnum Hf Hnf Hex.
  destruct (try_candidates_finds_accepting _ _ _ Hex) as (code & items & E).
  exists code, items.
  rewrite (select_array_numeric values o floats Hne Hnum Hf), Hnf, E. reflexivity.
Qed.

Lemma select_array_finds_an_accepting_candidate_witness :
  exists code items,
    select_array [VInt (-1); VInt 300] (set_strict default_options true)
    = Ret (OArray code items).
Proof.
  apply (select_array_finds_an_accepting_candidate
           [VInt (-1); VInt 300] (set_strict default_options true)
           [F64.of_Z (-1); F64.of_Z 300]).
  - discriminate.
  - reflexivity.
  - vm_compute. reflexivity.
  - reflexivity.
  - apply Exists_cons_tl, Exists_cons_tl, Exists_cons_tl, Exists_cons_hd.
    split; [discriminate|]. eexists. vm_compute. reflexivity.
Defined.

(** X5. An input with a float element is never returned as an integer
    array, even when the float is integral: the code is ['f'] or ['d']. *)
Theorem float_element_forces_a_float_code :
  forall (values : list value) (o : options) (code : string) (items : list value),
    Exists (fun v => isinstance_float v = true) values ->
    select_array values o = Ret (OArray code items) ->
    code = "f" \/ code = "d".
Proof.
  intros values o code items Hex H.
  apply select_array_returns_array in H.
  destruct H as (_ & _ & _ & _ & _ & _ & Ha).
  apply array_stored_as in Ha. unfold stored_as in Ha.
  destruct (int_range code) as [[lo hi]|].
  - exfalso. induction Ha as [|v item values items Hs _ IH].
    + inversion Hex.
    + inversion Hex as [? ? Hv|? ? Hv]; subst; [|exact (IH Hv)].
      destruct Hs as (n & Hn & _). destruct v; discriminate.
  - destruct Ha as [|v item values items Hs _]; [inversion Hex|].
    destruct Hs as (x & _ & [[Hc _]|[Hc _]]); auto.
Qed.

Lemma float_element_forces_a_float_code_witness :
  "f" = "f" \/ "f" = "d".
Proof.
  apply (float_element_forces_a_float_code
           [VInt 1; VFloat (F64.of_Z 2)] default_options "f"
           [VFloat (F64.of_Z 1); VFloat (F64.of_Z 2)]).
  - apply Exists_cons_tl, Exists_cons_hd. reflexivity.
  - vm_compute. reflexivity.
Defined.

(** ** The candidates, whatever the policy string *)

(** A policy that is neither [balanced] nor [wide] is read as [smallest]. *)
Lemma _type_sequence_any_policy (policy : string) (prefer_signed no_float : bool)
    (min_type max_type : option string) :
  exists p,
    _type_sequence policy prefer_signed no_float min_type max_type
    = Catalog.sequence p prefer_signed no_float min_type max_type.
Proof.
  destruct (policy == "balanced") eqn:Eb.
  - apply String.eqb_eq in Eb. subst policy. exists Catalog.Balanced.
    exact (_type_sequence_spec Catalog.Balanced _ _ _ _).
  - destruct (policy == "wide") eqn:Ew.
    + apply String.eqb_eq in Ew. subst policy. exists Catalog.Wide.
      exact (_type_sequence_spec Catalog.Wide _ _ _ _).
    + exists Catalog.Smallest.
      rewrite <- (_type_sequence_spec Catalog.Smallest).
      unfold _type_sequence. rewrite Eb, Ew. reflexivity.
Qed.

Lemma guarded_candidates_incl (o : options) (floats : list spec_float) (c : string) :
  In c (guarded_candidates o floats) ->
  In c (_type_sequence (policy o) (prefer_signed o) (no_float o) (min_type o) (max_type o)).
Proof.
  unfold guarded_candidates.
  destruct (negb (allow_float_downgrade o)
            && out_of_f32_range (py_min floats) (py_max floats)); [|trivial].
  intros H. apply filter_In in H. tauto.
Qed.

Lemma select_array_code_is_a_candidate (values : list value) (o : options)
    (code : string) (items : list value) :
  select_array values o = Ret (OArray code items) ->
  In code (_type_sequence (policy o) (prefer_signed o) (no_float o)
             (min_type o) (max_type o)).
Proof.
  intros H.
  destruct (select_array_returns_array _ _ _ _ H) as (floats & _ & _ & _ & _ & Hloop & _).
  apply try_candidates_some in Hloop.
  destruct Hloop as (c & its & Ho & Hin & _). inversion Ho; subst c its.
  exact (guarded_candidates_incl _ _ _ Hin).
Qed.

Lemma candidate_position (policy : string) (prefer_signed no_float : bool)
    (min_type max_type : option string) (c : string) :
  In c (_type_sequence policy prefer_signed no_float min_type max_type) ->
  exists p,
    Catalog.position c = Some p
    /\ (Catalog.bound min_type 0 <= p <= Catalog.bound max_type 9)%nat.
Proof.
  intros Hin.
  destruct (_type_sequence_any_policy policy prefer_signed no_float min_type max_type)
    as [p Hp].
  rewrite Hp in Hin. unfold Catalog.sequence in Hin.
  apply filter_In in Hin. destruct Hin as [_ Hw].
  unfold Catalog.in_window in Hw.
  destruct (Catalog.position c) as [q|]; [|discriminate].
  exists q. split; [reflexivity|].
  apply andb_true_iff in Hw. destruct Hw as [H1 H2].
  apply Nat.leb_le in H1, H2. cbn [List.length Catalog.catalog Nat.sub] in H2. lia.
Qed.

(** X6. The code of a returned array is one of the ten codes of the catalog,
    and its canonical position lies between those of [min_type] and
    [max_type] (0 and 9 for a bound that is absent, empty or unknown). *)
Theorem returned_code_lies_within_the_bounds :
  forall (values : list value) (o : options) (code : string) (items : list value),
    select_array values o = Ret (OArray code items) ->
    exists p,
      Catalog.position code = Some p
      /\ (Catalog.bound (min_type o) 0 <= p <= Catalog.bound (max_type o) 9)%nat.
Proof.
  intros values o code items H.
  apply (candidate_position (policy o) (prefer_signed o) (no_float o)).
  exact (select_array_code_is_a_candidate values o code items H).
Qed.

Lemma returned_code_lies_within_the_bounds_witness :
  exists p,
    Catalog.position "H" = Some p
    /\ (Catalog.bound (Some "h") 0 <= p <= Catalog.bound None 9)%nat.
Proof.
  apply (returned_code_lies_within_the_bounds [VInt 1; VInt 2]
           {| policy := "smallest"; min_type := Some "h"; max_type := None;
              prefer_signed := false; allow_float_downgrade := true;
              no_float := false; strict := false |}
           "H" [VInt 1; VInt 2]).
  vm_compute. reflexivity.
Defined.

(** ** Options that do not change the result *)

(** Dropping ['f'] from the candidates changes nothing in the loop when the
    data is out of the float-32 range: the loop passes over ['f'] anyway. *)
Lemma try_candidates_without_f32 (vmin vmax : option spec_float)
    (candidates : list string) (values : list value) :
  out_of_f32_range vmin vmax = true ->
  try_candidates true vmin vmax (filter (fun c => negb (c == "f")) candidates) values
  = try_candidates true vmin vmax candidates values.
Proof.
  intros Hoor. induction candidates as [|c cs IH]; [reflexivity|].
  cbn [filter]. destruct (c == "f") eqn:Ec; cbn [negb].
  - cbn [try_candidates]. rewrite Ec, Hoor. cbn [orb andb]. exact IH.
  - cbn [try_candidates]. rewrite Ec, IH. reflexivity.
Qed.

Lemma try_candidates_guarded (o : options) (floats : list spec_float) (values : list value) :
  try_candidates true (py_min floats) (py_max floats) (guarded_candidates o floats) values
  = try_candidates true (py_min floats) (py_max floats)
      (_type_sequence (policy o) (prefer_signed o) (no_float o) (min_type o) (max_type o))
      values.
Proof.
  unfold guarded_candidates.
  destruct (negb (allow_float_downgrade o)
            && out_of_f32_range (py_min floats) (py_max floats)) eqn:E; [|reflexivity].
  apply andb_true_iff in E. apply try_candidates_without_f32. tauto.
Qed.

(** X7. Without [strict], [allow_float_downgrade] has no effect on what
    [select_array] returns or raises. *)
Theorem allow_float_downgrade_has_no_effect_without_strict :
  forall (values : list value) (o : options) (b : bool),
    strict o = false ->
    select_array values (set_allow_float_downgrade o b) = select_array values o.
Proof.
  intros values o b Hs.
  destruct values as [|v values]; [reflexivity|].
  destruct (_is_all_numeric (v :: values)) eqn:Hnum.
  2:{ unfold select_array. cbn [List.length Nat.eqb]. rewrite Hnum. reflexivity. }
  destruct (mapM py_float (v :: values)) as [floats|e] eqn:Hf.
  2:{ unfold select_array. cbn [List.length Nat.eqb]. rewrite Hnum, Hf. reflexivity. }
  rewrite !(select_array_numeric _ _ floats) by (discriminate || assumption).
  rewrite !try_candidates_guarded.
  cbn [set_allow_float_downgrade policy prefer_signed no_float min_type max_type strict].
  rewrite Hs. reflexivity.
Qed.

Lemma allow_float_downgrade_has_no_effect_without_strict_witness :
  select_array [VFloat (F64.of_Z (10 ^ 40)); VFloat float_3_5]
    (set_allow_float_downgrade default_options false)
  = select_array [VFloat (F64.of_Z (10 ^ 40)); VFloat float_3_5] default_options.
Proof.
  apply (allow_float_downgrade_has_no_effect_without_strict
           [VFloat (F64.of_Z (10 ^ 40)); VFloat float_3_5] default_options false).
  reflexivity.
Defined.

(** X8. [strict] only turns a fallback on numeric input into an exception:
    an array returned without [strict] is returned with it, an exception
    raised without it is raised with it, and the list returned for an empty
    or non-numeric input is returned with it too. *)
Theorem strict_only_changes_the_numeric_fallback :
  forall (values : list value) (o : options),
    match select_array values (set_strict o false) with
    | Ret (OArray code items) =>
        select_array values (set_strict o true) = Ret (OArray code items)
    | Ret (OList items) =>
        if (List.length values =? 0)%nat || negb (_is_all_numeric values)
        then select_array values (set_strict o true) = Ret (OList items)
        else exists e, select_array values (set_strict o true) = Raise e
    | Raise e => select_array values (set_strict o true) = Raise e
    end.
Proof.
  intros values o.
  destruct values as [|v values]; [reflexivity|].
  destruct (_is_all_numeric (v :: values)) eqn:Hnum.
  2:{ unfold select_array. cbn [List.length Nat.eqb]. rewrite Hnum. reflexivity. }
  destruct (mapM py_float (v :: values)) as [floats|e] eqn:Hf.
  2:{ unfold select_array. cbn [List.length Nat.eqb]. rewrite Hnum, Hf. reflexivity. }
  rewrite !(select_array_numeric _ _ floats) by (discriminate || assumption).
  change (guarded_candidates (set_strict o true) floats) with (guarded_candidates o floats).
  change (guarded_candidates (set_strict o false) floats) with (guarded_candidates o floats).
  cbn [set_strict no_float strict List.length Nat.eqb orb negb].
  destruct (no_float o).
  - destruct (find isinstance_float (v :: values)); eauto.
  - destruct (try_candidates_total true (py_min floats) (py_max floats)
                (guarded_candidates o floats) (v :: values)) as [[out|] E];
      rewrite E; cbn [bind].
    + destruct (try_candidates_some _ _ _ _ _ _ E) as (code & items & -> & _).
      reflexivity.
    + destruct (first_violation _ 0 (v :: values)); eauto.
Qed.

(** ** Input that [float] converts *)

Module IntToFloat.

Import Rounding F64Facts.

(** Rounding does not overflow when the number is below [2^(emax-1)]. *)
Lemma binary_round_finite (prec emax : Z) (s : bool) (m : positive) (e : Z) (s' : bool) :
  1 <= prec -> 2 <= emax ->
  Z.pos (digits2_pos m) + e < emax ->
  binary_round prec emax s m e <> S754_infinity s'.
Proof.
  intros Hprec Hemax HD. rewrite binary_round_eq. cbv zeta.
  set (D := Z.pos (digits2_pos m)) in *.
  set (ez := Z.min e (fexp prec emax (D + e))).
  set (M := Z.pos m * 2 ^ (e - ez)).
  assert (Hez : 0 <= e - ez) by (unfold ez; lia).
  assert (HM : 0 < M) by (unfold M; nia).
  assert (HdM : Zdigits2 M + ez = D + e).
  { unfold M. rewrite Zdigits2_mul_pow2 by lia. cbn [Zdigits2]. fold D. lia. }
  destruct (binary_round_aux_exact prec emax s M ez HM) as (m1 & H1 & ->).
  cbv zeta. rewrite HdM in *.
  set (e1 := Z.max ez (fexp prec emax (D + e))) in *.
  set (m0 := Z.shiftr M (e1 - ez)) in *.
  assert (He1 : 0 <= e1 - ez) by (unfold e1; lia).
  assert (Hm0 : 0 <= m0) by (apply Z.shiftr_nonneg; lia).
  assert (Hd0 : Zdigits2 m0 + e1 = Z.max e1 (D + e)).
  { unfold m0. rewrite Zdigits2_shiftr by lia. lia. }
  assert (Hd1 : Zdigits2 m1 + e1 <= Z.max e1 (D + e) + 1).
  { destruct H1 as [->|(-> & _)]; [lia|].
    pose proof (Zdigits2_succ m0 Hm0). lia. }
  destruct (Z.shiftr m1 _) as [|m2|m2]; try discriminate.
  match goal with |- context [?a <=? ?b] => destruct (Z.leb_spec a b) as [_|Hbad] end;
    [discriminate|].
  exfalso. unfold e1, ez, fexp, emin in *. lia.
Qed.

Lemma of_Z_finite (n : Z) (s : bool) :
  Z.abs n < 2 ^ 1023 -> F64.of_Z n <> S754_infinity s.
Proof.
  intros Hn. unfold F64.of_Z, binary_normalize.
  assert (Hp : forall p, Z.pos p < 2 ^ 1023 -> Z.pos (digits2_pos p) + 0 < F64.emax).
  { intros p Hlt. rewrite digits2_pos_log2.
    apply Z.log2_lt_pow2 in Hlt; [|lia]. unfold F64.emax. lia. }
  destruct n as [|p|p]; [discriminate| |];
    apply binary_round_finite; unfold F64.prec, F64.emax; try lia;
    apply (Hp p); lia.
Qed.

Lemma int_to_float_total (n : Z) :
  Z.abs n < 2 ^ 1023 -> int_to_float n = Ret (F64.of_Z n).
Proof.
  intros Hn. unfold int_to_float.
  destruct (F64.of_Z n) as [s|s| |s m e] eqn:E; try reflexivity.
  exfalso. exact (of_Z_finite n s Hn E).
Qed.

End IntToFloat.

Lemma b2z_small (b : bool) : Z.abs (Z.b2z b) < 2 ^ 1023.
Proof.
  apply Z.lt_le_trans with (2 ^ 1); [destruct b; cbn; lia|].
  apply Z.pow_le_mono_r; lia.
Qed.

Lemma real_value_converts (v : value) :
  real_value v -> isinstance_Number v = true /\ exists x, py_float v = Ret x.
Proof.
  destruct v; cbn; intros H; try contradiction; split; try reflexivity; eauto.
  - rewrite (IntToFloat.int_to_float_total n H). eauto.
  - rewrite (IntToFloat.int_to_float_total _ (b2z_small b)). eauto.
Qed.

Lemma real_values_convert (values : list value) :
  Forall real_value values ->
  _is_all_numeric values = true /\ exists floats, mapM py_float values = Ret floats.
Proof.
  induction 1 as [|v values Hv _ [IHn [floats IHf]]]; [split; [reflexivity|eexists; reflexivity]|].
  destruct (real_value_converts v Hv) as [Hn [x Hx]].
  split.
  - cbn. rewrite Hn. exact IHn.
  - exists (x :: floats). cbn. rewrite Hx, IHf. reflexivity.
Qed.

(** X9. Without [strict], [select_array] never raises on real input: floats,
    [bool]s and integers below [2^1023] in magnitude always give an array
    or the list, whatever the other options. *)
Theorem select_array_returns_on_real_input_without_strict :
  forall (values : list value) (o : options),
    Forall real_value values ->
    strict o = false ->
    exists out, select_array values o = Ret out.
Proof.
  intros values o Hreal Hs.
  destruct values as [|v values]; [eexists; reflexivity|].
  destruct (real_values_convert _ Hreal) as [Hnum [floats Hf]].
  rewrite (select_array_numeric _ o floats) by (discriminate || assumption).
  rewrite Hs. destruct (no_float o); [eauto|].
  destruct (try_candidates_total true (py_min floats) (py_max floats)
              (guarded_candidates o floats) (v :: values)) as [[out|] ->]; cbn; eauto.
Qed.

Lemma select_array_returns_on_real_input_without_strict_witness :
  exists out,
    select_array [VInt (2 ^ 70); VBool true; VFloat float_3_5]
      (with_no_float default_options false) = Ret out.
Proof.
  apply (select_array_returns_on_real_input_without_strict
           [VInt (2 ^ 70); VBool true; VFloat float_3_5]
           (with_no_float default_options false)).
  - repeat constructor.
  - reflexivity.
Defined.

Lemma position_le_9 (c : string) (p : nat) :
  Catalog.position c = Some p -> (p <= 9)%nat.
Proof.
  unfold Catalog.position. cbn.
  repeat match goal with |- context [c == ?k] => destruct (c == k) end;
    intros H; inversion H; lia.
Qed.

Lemma float64_is_a_candidate (o : options) (floats : list spec_float) :
  no_float o = false ->
  Catalog.bound (max_type o) 9 = 9%nat ->
  In "d" (guarded_candidates o floats).
Proof.
  intros Hnf Hmax.
  assert (Hin : In "d" (_type_sequence (policy o) (prefer_signed o) (no_float o)
                          (min_type o) (max_type o))).
  { destruct (_type_sequence_any_policy (policy o) (prefer_signed o) (no_float o)
                (min_type o) (max_type o)) as [p ->].
    unfold Catalog.sequence. apply filter_In. split.
    - rewrite Hnf. apply in_or_app. right. cbn. auto.
    - unfold Catalog.in_window. change (Catalog.position "d") with (Some 9%nat).
      cbn [List.length Catalog.catalog Nat.sub]. rewrite Hmax.
      apply andb_true_iff. split; apply Nat.leb_le; [|lia].
      unfold Catalog.bound. destruct (min_type o) as [c|]; [|lia].
      destruct (Catalog.position c) as [i|] eqn:E; [|lia].
      exact (position_le_9 c i E). }
  unfold guarded_candidates.
  destruct (negb (allow_float_downgrade o)
            && out_of_f32_range (py_min floats) (py_max floats)); [|exact Hin].
  apply filter_In. split; [exact Hin|reflexivity].
Qed.

(** X10. When floats are allowed and [max_type] does not exclude float-64,
    non-empty real input never falls back: [select_array] returns an array,
    with or without [strict]. *)
Theorem real_input_gets_an_array_when_float64_is_allowed :
  forall (values : list value) (o : options),
    values <> [] ->
    Forall real_value values ->
    no_float o = false ->
    Catalog.bound (max_type o) 9 = 9%nat ->
    exists code items, select_array values o = Ret (OArray code items).
Proof.
  intros values o Hne Hreal Hnf Hmax.
  destruct (real_values_convert _ Hreal) as [Hnum [floats Hf]].
  assert (Hex : Exists (fun c => accepts floats c values) (guarded_candidates o floats)).
  { apply Exists_exists. exists "d".
    split; [exact (float64_is_a_candidate o floats Hnf Hmax)|].
    split; [discriminate|].
    destruct (array_float_codes values floats Hnum Hf) as [Hd _]. eauto. }
  destruct (try_candidates_finds_accepting _ _ _ Hex) as (code & items & E).
  exists code, items.
  rewrite (select_array_numeric values o floats Hne Hnum Hf), Hnf, E. reflexivity.
Qed.

Lemma real_input_gets_an_array_when_float64_is_allowed_witness :
  exists code items,
    select_array [VInt (2 ^ 70); VBool true; VFloat float_3_5]
      (set_strict default_options true) = Ret (OArray code items).
Proof.
  apply (real_input_gets_an_array_when_float64_is_allowed
           [VInt (2 ^ 70); VBool true; VFloat float_3_5]
           (set_strict default_options true)).
  - discriminate.
  - repeat constructor.
  - reflexivity.
  - reflexivity.
Defined.

(** ** What the policies choose *)

Lemma int_range_below_2_64 (c : string) (lo hi : Z) :
  int_range c = Some (lo, hi) -> - 2 ^ 63 <= lo /\ hi < 2 ^ 64.
Proof.
  unfold int_range.
  repeat match goal with |- context [c == ?k] => destruct (c == k) end;
    intros H; inversion H; cbn; lia.
Qed.

Lemma array_ints_in_range (c : string) (lo hi : Z) (ns : list Z) :
  int_range c = Some (lo, hi) ->
  Forall (fun n => lo <= n <= hi) ns ->
  array c (map VInt ns) = Ret (map VInt ns).
Proof.
  intros R H. unfold array, known_typecode. rewrite R.
  induction H as [|n ns Hn _ IH]; [reflexivity|].
  cbn [map mapM]. unfold array_item at 1. rewrite R.
  replace ((lo <=? n) && (n <=? hi)) with true
    by (symmetry; apply andb_true_iff; split; apply Z.leb_le; lia).
  cbn [bind]. rewrite IH. reflexivity.
Qed.

Lemma ints_are_real (ns : list Z) (lo hi : Z) :
  - 2 ^ 63 <= lo -> hi < 2 ^ 64 ->
  Forall (fun n => lo <= n <= hi) ns -> Forall real_value (map VInt ns).
Proof.
  intros Hlo Hhi H. apply Forall_map. apply (Forall_impl _ (P := fun n => lo <= n <= hi));
    [|exact H].
  intros n Hn. cbn [real_value].
  assert (Hbig : 2 ^ 64 <= 2 ^ 1023) by (apply Z.pow_le_mono_r; lia).
  change (2 ^ 64) with 18446744073709551616 in *.
  change (2 ^ 63) with 9223372036854775808 in *. lia.
Qed.

(** When every integer of the input is in the range of the first candidate,
    that candidate is returned, with the integers as they are. *)
Lemma first_candidate_holding_the_integers (o : options) (c : string)
    (rest : list string) (lo hi : Z) (ns : list Z) :
  ns <> [] ->
  no_float o = false ->
  _type_sequence (policy o) (prefer_signed o) (no_float o) (min_type o) (max_type o)
  = c :: rest ->
  int_range c = Some (lo, hi) ->
  Forall (fun n => lo <= n <= hi) ns ->
  select_array (map VInt ns) o = Ret (OArray c (map VInt ns)).
Proof.
  intros Hne Hnf Hseq R H.
  destruct (int_range_below_2_64 c lo hi R) as [Hlo Hhi].
  destruct (real_values_convert _ (ints_are_real ns lo hi Hlo Hhi H)) as [Hnum [floats Hf]].
  rewrite (select_array_numeric _ o floats) by ((destruct ns; [congruence|discriminate]) || assumption).
  rewrite Hnf, try_candidates_guarded, Hseq. cbn [try_candidates].
  replace (((c == "f") || (c == "d")) && true && (c == "f")) with false.
  2:{ unfold int_range in R.
      destruct (c == "f") eqn:Ef; [|symmetry; apply andb_false_r].
      apply String.eqb_eq in Ef. subst c. discriminate. }
  cbn [andb]. rewrite _try_array_eq, (array_ints_in_range c lo hi ns R H). reflexivity.
Qed.

(** X11. With the default options, [get_array] stores a non-empty list of
    integers between 0 and 255 as a ['B'] array of the same integers. *)
Theorem get_array_of_small_unsigned_integers :
  forall ns : list Z,
    ns <> [] ->
    Forall (fun n => 0 <= n <= 255) ns ->
    get_array (map VInt ns) = Ret (OArray "B" (map VInt ns)).
Proof.
  intros ns Hne H. unfold get_array.
  apply (first_candidate_holding_the_integers _ "B"
           ["b"; "H"; "h"; "I"; "i"; "Q"; "q"; "f"; "d"] 0 255 ns Hne);
    (reflexivity || exact H).
Qed.

Lemma get_array_of_small_unsigned_integers_witness :
  get_array (map VInt [0; 17; 255]) = Ret (OArray "B" (map VInt [0; 17; 255])).
Proof.
  apply (get_array_of_small_unsigned_integers [0; 17; 255]).
  - discriminate.
  - repeat constructor; lia.
Defined.

(** X12. With the policy [wide] and the other options at their defaults,
    [select_array] stores a non-empty list of integers of the signed 32-bit
    range as an ['i'] array: small integers are not narrowed to one or two
    bytes. *)
Theorem wide_policy_stores_int32_integers_as_i :
  forall ns : list Z,
    ns <> [] ->
    Forall (fun n => -2147483648 <= n <= 2147483647) ns ->
    select_array (map VInt ns) wide_options = Ret (OArray "i" (map VInt ns)).
Proof.
  intros ns Hne H.
  apply (first_candidate_holding_the_integers wide_options "i"
           ["I"; "q"; "Q"; "h"; "H"; "b"; "B"; "f"; "d"] (-2147483648) 2147483647 ns Hne);
    (reflexivity || exact H).
Qed.

Lemma wide_policy_stores_int32_integers_as_i_witness :
  select_array (map VInt [1; 2; 3]) wide_options = Ret (OArray "i" (map VInt [1; 2; 3])).
Proof.
  apply (wide_policy_stores_int32_integers_as_i [1; 2; 3]).
  - discriminate.
  - repeat constructor; lia.
Defined.

Lemma array_int_code_rejects_floats (c : string) (r : Z * Z) (x : spec_float)
    (xs : list spec_float) :
  int_range c = Some r -> array c (map VFloat (x :: xs)) = Raise TypeError.
Proof.
  intros R. unfold array, known_typecode. rewrite R. cbn [map mapM].
  unfold array_item at 1. rewrite R. destruct r. reflexivity.
Qed.

Lemma select_array_default_floats (x : spec_float) (xs : list spec_float) :
  select_array (map VFloat (x :: xs)) default_options
  = Ret (if out_of_f32_range (py_min (x :: xs)) (py_max (x :: xs))
         then OArray "d" (map VFloat (x :: xs))
         else OArray "f" (map (fun x => VFloat (F64.round_f32 x)) (x :: xs))).
Proof.
  destruct (array_float_codes (map VFloat (x :: xs)) (x :: xs)
              (all_numeric_floats _) (mapM_py_float_floats _)) as [Hd Hf].
  rewrite (select_array_numeric _ default_options (x :: xs))
    by (discriminate || apply all_numeric_floats || apply mapM_py_float_floats).
  cbn [no_float default_options]. rewrite try_candidates_guarded.
  change (_type_sequence (policy default_options) (prefer_signed default_options)
            (no_float default_options) (min_type default_options)
            (max_type default_options))
    with ["B"; "b"; "H"; "h"; "I"; "i"; "Q"; "q"; "f"; "d"].
  cbn [try_candidates String.eqb Ascii.eqb Bool.eqb orb andb].
  rewrite !_try_array_eq.
  rewrite (array_int_code_rejects_floats "B" (0, 255)) by reflexivity.
  rewrite (array_int_code_rejects_floats "b" (-128, 127)) by reflexivity.
  rewrite (array_int_code_rejects_floats "H" (0, 65535)) by reflexivity.
  rewrite (array_int_code_rejects_floats "h" (-32768, 32767)) by reflexivity.
  rewrite (array_int_code_rejects_floats "I" (0, 4294967295)) by reflexivity.
  rewrite (array_int_code_rejects_floats "i" (-2147483648, 2147483647)) by reflexivity.
  rewrite (array_int_code_rejects_floats "Q" (0, 18446744073709551615)) by reflexivity.
  rewrite (array_int_code_rejects_floats "q" (-9223372036854775808, 9223372036854775807))
    by reflexivity.
  cbn [bind].
  destruct (out_of_f32_range (py_min (x :: xs)) (py_max (x :: xs))).
  - rewrite Hd. reflexivity.
  - rewrite Hf. reflexivity.
Qed.

(** X13. With the default options a non-empty list of floats is never stored
    under an integer code. When [abs(min)] and [abs(max)] are within
    [F32_MAX] it becomes an ['f'] array of the values rounded to float-32;
    otherwise it becomes a ['d'] array of the values themselves. *)
Theorem default_options_on_floats :
  forall xs : list spec_float,
    xs <> [] ->
    select_array (map VFloat xs) default_options
    = Ret (if out_of_f32_range (py_min xs) (py_max xs)
           then OArray "d" (map VFloat xs)
           else OArray "f" (map (fun x => VFloat (F64.round_f32 x)) xs)).
Proof.
  intros xs Hne. destruct xs as [|x xs]; [congruence|].
  apply select_array_default_floats.
Qed.

(** X14. A NaN in first place makes [min] and [max] NaN, which switches the
    float-32 range guard off: with the default options the list becomes an
    ['f'] array whatever follows the NaN, and a finite double beyond the
    float-32 range, such as [1e39], is stored as an infinity. *)
Theorem leading_nan_switches_the_float32_guard_off :
  (forall xs : list spec_float,
     select_array (map VFloat (S754_nan :: xs)) default_options
     = Ret (OArray "f" (map (fun x => VFloat (F64.round_f32 x)) (S754_nan :: xs))))
  /\ F64.gt (SFabs (F64.of_Z (10 ^ 39))) F32_MAX = true
  /\ F64.round_f32 (F64.of_Z (10 ^ 39)) = S754_infinity false.
Proof.
  split; [|split; vm_compute; reflexivity].
  intros xs. rewrite select_array_default_floats.
  replace (out_of_f32_range (py_min (S754_nan :: xs)) (py_max (S754_nan :: xs))) with false;
    [reflexivity|].
  cbn [py_min py_max]. fold max_step min_step.
  rewrite fold_max_nan, fold_min_nan. reflexivity.
Qed.

Lemma default_options_on_floats_witness :
  select_array (map VFloat [F64.of_Z (10 ^ 40); float_3_5]) default_options
  = Ret (if out_of_f32_range (py_min [F64.of_Z (10 ^ 40); float_3_5])
                             (py_max [F64.of_Z (10 ^ 40); float_3_5])
         then OArray "d" (map VFloat [F64.of_Z (10 ^ 40); float_3_5])
         else OArray "f" (map (fun x => VFloat (F64.round_f32 x))
                              [F64.of_Z (10 ^ 40); float_3_5])).
Proof.
  apply (default_options_on_floats [F64.of_Z (10 ^ 40); float_3_5]).
  discriminate.
Defined.

(** X15. With the default options a non-empty list of [bool]s comes back as
    a ['B'] array of the integers 0 and 1. *)
Theorem get_array_of_bools :
  forall bs : list bool,
    bs <> [] ->
    get_array (map VBool bs) = Ret (OArray "B" (map (fun b => VInt (Z.b2z b)) bs)).
Proof.
  intros bs Hne. unfold get_array.
  assert (Hreal : Forall real_value (map VBool bs))
    by (apply Forall_map, Forall_forall; intros b _; exact I).
  destruct (real_values_convert _ Hreal) as [Hnum [floats Hf]].
  rewrite (select_array_numeric _ _ floats)
    by ((destruct bs; [congruence|discriminate]) || assumption).
  cbn [no_float]. rewrite try_candidates_guarded.
  cbn [policy prefer_signed no_float min_type max_type].
  change (_type_sequence "smallest" false false None None)
    with ["B"; "b"; "H"; "h"; "I"; "i"; "Q"; "q"; "f"; "d"].
  cbn [try_candidates String.eqb Ascii.eqb Bool.eqb orb andb].
  rewrite _try_array_eq.
  replace (array "B" (map VBool bs)) with (Ret (A := list value) (map (fun b => VInt (Z.b2z b)) bs));
    [reflexivity|].
  clear. change (array "B" (map VBool bs)) with (mapM (array_item "B") (map VBool bs)).
  induction bs as [|b bs IH]; [reflexivity|].
  cbn [map mapM]. rewrite <- IH. reflexivity.
Qed.

Lemma get_array_of_bools_witness :
  get_array (map VBool [true; false]) = Ret (OArray "B" (map (fun b => VInt (Z.b2z b)) [true; false])).
Proof.
  apply (get_array_of_bools [true; false]). discriminate.
Defined.

(** ** The candidate list *)

Lemma policy_orders_NoDup (p : Catalog.policy_name) (prefer_signed no_float : bool) :
  NoDup (Catalog.integer_order p prefer_signed ++ Catalog.float_order no_float).
Proof.
  destruct p, prefer_signed, no_float; cbn;
    repeat (constructor; [cbn; intros H; repeat (destruct H as [H|H]; try discriminate); exact H|]);
    constructor.
Qed.

Lemma integer_order_int_codes (p : Catalog.policy_name) (prefer_signed : bool) (c : string) :
  In c (Catalog.integer_order p prefer_signed) -> int_range c <> None.
Proof.
  destruct p, prefer_signed; cbn; intros H;
    repeat (destruct H as [H|H]; [subst c; discriminate|]); contradiction.
Qed.

Lemma position_some_iff (c : string) :
  Catalog.position c <> None
  <-> In c ["b"; "B"; "h"; "H"; "i"; "I"; "q"; "Q"; "f"; "d"].
Proof.
  split.
  - unfold Catalog.position. cbn.
    repeat match goal with
           | |- context [c == ?k] =>
               destruct (c == k) eqn:?E;
               [apply String.eqb_eq in E; subst c; intros _; cbn; tauto|clear E]
           end.
    congruence.
  - intros H. cbn in H.
    repeat (destruct H as [H|H]; [subst c; discriminate|]). contradiction.
Qed.

(** X16. Whatever the policy string and the bounds, [_type_sequence] lists
    each code at most once, lists only codes of the catalog, and lists only
    integer codes when [no_float] is set. *)
Theorem type_sequence_has_no_duplicates_and_only_catalog_codes :
  forall (policy : string) (prefer_signed no_float : bool)
         (min_type max_type : option string),
    let candidates := _type_sequence policy prefer_signed no_float min_type max_type in
    NoDup candidates
    /\ Forall (fun c => Catalog.position c <> None) candidates
    /\ (if no_float then Forall (fun c => int_range c <> None) candidates else True).
Proof.
  intros policy prefer_signed no_float min_type max_type candidates. subst candidates.
  destruct (_type_sequence_any_policy policy prefer_signed no_float min_type max_type)
    as [p ->].
  unfold Catalog.sequence. split; [|split].
  - apply NoDup_filter. apply policy_orders_NoDup.
  - apply Forall_forall. intros c Hc. apply filter_In in Hc. destruct Hc as [_ Hw].
    unfold Catalog.in_window in Hw. destruct (Catalog.position c); congruence.
  - destruct no_float; [|exact I].
    apply Forall_forall. intros c Hc. apply filter_In in Hc. destruct Hc as [Hc _].
    cbn [Catalog.float_order] in Hc. rewrite app_nil_r in Hc.
    exact (integer_order_int_codes p prefer_signed c Hc).
Qed.

(** X17. Without bounds and with floats allowed, every policy (and every
    policy string) tries exactly the ten codes of the catalog, each once:
    the policies differ in order only. *)
Theorem unbounded_type_sequence_lists_the_whole_catalog :
  forall (policy : string) (prefer_signed : bool) (min_type max_type : option string),
    truthy min_type = false ->
    truthy max_type = false ->
    let candidates := _type_sequence policy prefer_signed false min_type max_type in
    NoDup candidates
    /\ List.length candidates = 10%nat
    /\ forall c, In c candidates <-> Catalog.position c <> None.
Proof.
  intros policy prefer_signed min_type max_type Hmin Hmax candidates. subst candidates.
  destruct (_type_sequence_any_policy policy prefer_signed false min_type max_type)
    as [p ->].
  unfold Catalog.sequence.
  rewrite (truthy_false_bound _ _ Hmin), (truthy_false_bound _ _ Hmax).
  split; [apply NoDup_filter, policy_orders_NoDup|].
  split; [destruct p, prefer_signed; reflexivity|].
  intros c. rewrite position_some_iff.
  destruct p, prefer_signed; cbn; tauto.
Qed.

Lemma unbounded_type_sequence_lists_the_whole_catalog_witness :
  let candidates := _type_sequence "wide" true false (Some "") None in
  NoDup candidates
  /\ List.length candidates = 10%nat
  /\ forall c, In c candidates <-> Catalog.position c <> None.
Proof.
  apply (unbounded_type_sequence_lists_the_whole_catalog "wide" true (Some "") None);
    reflexivity.
Defined.

(** * The analyzer *)

Lemma fold_max_upper (rest : list spec_float) :
  forall cur,
    cur <> S754_nan ->
    Forall (fun x => x <> S754_nan) rest ->
    fold_left max_step rest cur <> S754_nan
    /\ SFltb (fold_left max_step rest cur) cur = false
    /\ Forall (fun x => SFltb (fold_left max_step rest cur) x = false) rest.
Proof.
  induction rest as [|item rest IH]; intros cur Hc Hr; cbn [fold_left].
  - split; [exact Hc|]. split; [|constructor].
    apply FloatOrder.SFltb_false_iff. unfold lt_by_key, float_key_lt.
    destruct (float_key cur) as [[[a b] c]|]; [lia|tauto].
  - inversion Hr as [|? ? Hi Hr']; subst.
    assert (Hc' : max_step cur item <> S754_nan)
      by (unfold max_step; destruct (F64.gt item cur); assumption).
    destruct (IH _ Hc' Hr') as (Hm & Hcur & Hall).
    split; [exact Hm|].
    destruct (SFltb cur item) eqn:E.
    + assert (Hstep : max_step cur item = item)
        by (unfold max_step, F64.gt; rewrite E; reflexivity).
      rewrite Hstep in *.
      split; [|constructor; assumption].
      destruct (SFltb (fold_left max_step rest item) cur) eqn:E2; [|reflexivity].
      rewrite <- Hcur. symmetry. exact (FloatOrder.SFltb_trans _ _ _ E2 E).
    + assert (Hstep : max_step cur item = cur)
        by (unfold max_step, F64.gt; rewrite E; reflexivity).
      rewrite Hstep in *.
      split; [exact Hcur|]. constructor; [|exact Hall].
      destruct (SFltb (fold_left max_step rest cur) item) eqn:E2; [|reflexivity].
      rewrite <- Hcur. symmetry. exact (FloatOrder.SFltb_not_lt_trans _ _ _ Hc E2 E).
Qed.

Lemma fold_min_lower (rest : list spec_float) :
  forall cur,
    cur <> S754_nan ->
    Forall (fun x => x <> S754_nan) rest ->
    fold_left min_step rest cur <> S754_nan
    /\ SFltb cur (fold_left min_step rest cur) = false
    /\ Forall (fun x => SFltb x (fold_left min_step rest cur) = false) rest.
Proof.
  induction rest as [|item rest IH]; intros cur Hc Hr; cbn [fold_left].
  - split; [exact Hc|]. split; [|constructor].
    apply FloatOrder.SFltb_false_iff. unfold lt_by_key, float_key_lt.
    destruct (float_key cur) as [[[a b] c]|]; [lia|tauto].
  - inversion Hr as [|? ? Hi Hr']; subst.
    assert (Hc' : min_step cur item <> S754_nan)
      by (unfold min_step; destruct (F64.lt item cur); assumption).
    destruct (IH _ Hc' Hr') as (Hm & Hcur & Hall).
    split; [exact Hm|].
    destruct (SFltb item cur) eqn:E.
    + assert (Hstep : min_step cur item = item)
        by (unfold min_step, F64.lt; rewrite E; reflexivity).
      rewrite Hstep in *.
      split; [|constructor; assumption].
      destruct (SFltb cur (fold_left min_step rest item)) eqn:E2; [|reflexivity].
      rewrite <- Hcur. symmetry. exact (FloatOrder.SFltb_trans _ _ _ E E2).
    + assert (Hstep : min_step cur item = cur)
        by (unfold min_step, F64.lt; rewrite E; reflexivity).
      rewrite Hstep in *.
      split; [exact Hcur|]. constructor; [|exact Hall].
      destruct (SFltb item (fold_left min_step rest cur)) eqn:E2; [|reflexivity].
      rewrite <- Hcur. symmetry. exact (FloatOrder.SFltb_not_gt_trans _ _ _ Hc E2 E).
Qed.

(** X18. On a non-empty list of floats without NaN, [_scan_stats] returns the
    length, a minimum and a maximum that are items of the list and that no
    item is below, respectively above, and the flag [has_float] set. *)
Theorem scan_stats_of_floats_without_nan :
  forall floats : list spec_float,
    floats <> [] ->
    Forall (fun x => x <> S754_nan) floats ->
    exists vmin vmax,
      _scan_stats floats = (List.length floats, Some vmin, Some vmax, true)
      /\ In vmin floats /\ In vmax floats
      /\ Forall (fun x => F64.lt x vmin = false /\ F64.gt x vmax = false) floats.
Proof.
  intros floats Hne Hall. destruct floats as [|v rest]; [congruence|].
  inversion Hall as [|? ? Hv Hrest]; subst.
  rewrite _scan_stats_nonempty by discriminate.
  cbn [py_min py_max]. fold max_step min_step.
  exists (fold_left min_step rest v), (fold_left max_step rest v).
  split; [reflexivity|].
  split; [apply (py_min_in (v :: rest)); reflexivity|].
  split; [apply (py_max_in (v :: rest)); reflexivity|].
  destruct (fold_max_upper rest v Hv Hrest) as (_ & Hx1 & Hx2).
  destruct (fold_min_lower rest v Hv Hrest) as (_ & Hn1 & Hn2).
  unfold F64.lt, F64.gt. constructor; [split; assumption|].
  rewrite Forall_forall in *. intros x Hx. split; auto.
Qed.

Lemma scan_stats_of_floats_without_nan_witness :
  exists vmin vmax,
    _scan_stats [float_3_5; F64.of_Z 2] = (List.length [float_3_5; F64.of_Z 2], Some vmin, Some vmax, true)
    /\ In vmin [float_3_5; F64.of_Z 2] /\ In vmax [float_3_5; F64.of_Z 2]
    /\ Forall (fun x => F64.lt x vmin = false /\ F64.gt x vmax = false)
              [float_3_5; F64.of_Z 2].
Proof.
  apply (scan_stats_of_floats_without_nan [float_3_5; F64.of_Z 2]).
  - discriminate.
  - repeat constructor; discriminate.
Defined.

(** X19. On non-empty numeric input [analyze_array] raises exactly what
    [select_array] raises; otherwise its value is what [select_array]
    returns, its type code is that of the array (none for a list), its count
    is the length of the input, minimum and maximum are present, and its
    reason is [float] for every array and [no-fitting-type] for a list. *)
Theorem analyze_array_follows_select_array :
  forall (values : list value) (o : options),
    values <> [] ->
    _is_all_numeric values = true ->
    match select_array values o with
    | Raise e => analyze_array values o = Raise e
    | Ret out =>
        exists vmin vmax,
          analyze_array values o
          = Ret {| ar_value := out;
                   ar_typecode := committed out;
                   ar_count := List.length values;
                   ar_min := Some vmin;
                   ar_max := Some vmax;
                   ar_reason := match out with
                                | OArray _ _ => "float"
                                | OList _ => "no-fitting-type"
                                end |}
    end.
Proof.
  intros values o Hne Hnum.
  destruct values as [|v values]; [congruence|].
  unfold analyze_array. cbn [List.length Nat.eqb]. rewrite Hnum. cbn [negb].
  destruct (mapM py_float (v :: values)) as [floats|e] eqn:Hf.
  2:{ unfold select_array. cbn [List.length Nat.eqb]. rewrite Hnum, Hf. reflexivity. }
  cbn [bind].
  assert (Hlen : List.length floats = S (List.length values))
    by (apply mapM_length in Hf; exact Hf).
  destruct floats as [|x floats]; [discriminate|].
  rewrite _scan_stats_nonempty by discriminate. rewrite Hlen.
  destruct (select_array_numeric_cases (v :: values) o (x :: floats) _
              ltac:(discriminate) Hnum Hf eq_refl) as [(_ & E)|[(_ & c & its & _ & _ & E)|(_ & _ & E)]];
    rewrite E.
  - destruct (strict o); [destruct (find isinstance_float (v :: values)); reflexivity|].
    cbn [bind py_min py_max]. eauto.
  - cbn [bind py_min py_max]. eauto.
  - destruct (strict o).
    + destruct (first_violation _ 0 (v :: values)); reflexivity.
    + cbn [bind py_min py_max]. eauto.
Qed.

Lemma analyze_array_follows_select_array_witness :
  match select_array [VInt 1; VInt 300] default_options with
  | Raise e => analyze_array [VInt 1; VInt 300] default_options = Raise e
  | Ret out =>
      exists vmin vmax,
        analyze_array [VInt 1; VInt 300] default_options
        = Ret {| ar_value := out;
                 ar_typecode := committed out;
                 ar_count := List.length [VInt 1; VInt 300];
                 ar_min := Some vmin;
                 ar_max := Some vmax;
                 ar_reason := match out with
                              | OArray _ _ => "float"
                              | OList _ => "no-fitting-type"
                              end |}
  end.
Proof.
  apply (analyze_array_follows_select_array [VInt 1; VInt 300] default_options).
  - discriminate.
  - reflexivity.
Defined.

(** * Streaming and chunking *)

Lemma select_array_output_length (values : list value) (o : options) (out : output) :
  select_array values o = Ret out -> output_length out = List.length values.
Proof.
  intros H.
  destruct (select_array_result_shape values o out H) as [->|(code & items & -> & Ha)].
  - reflexivity.
  - exact (array_length _ _ _ Ha).
Qed.

Lemma chunk_for_length (code : option string) (w : list value) :
  output_length (chunk_for code w) = List.length w.
Proof.
  destruct code as [c|]; cbn; [|reflexivity].
  destruct (array c w) as [items|e] eqn:E; cbn; [|reflexivity].
  exact (array_length _ _ _ E).
Qed.

Lemma windows_lengths (n : nat) :
  (0 < n)%nat ->
  forall (fuel : nat) (l : list value),
    (List.length l <= fuel)%nat ->
    list_sum (map (@List.length value) (windows fuel n l)) = List.length l
    /\ Forall (fun w => (0 < List.length w <= n)%nat) (windows fuel n l).
Proof.
  intros Hn fuel. induction fuel as [|fuel IH]; intros l Hl.
  - destruct l; [split; [reflexivity|constructor]|cbn in Hl; lia].
  - destruct l as [|a l]; [split; [reflexivity|constructor]|].
    cbn [windows map].
    assert (Hs : (List.length (skipn n (a :: l)) <= fuel)%nat)
      by (rewrite length_skipn; cbn [List.length] in *; lia).
    destruct (IH _ Hs) as [IH1 IH2].
    unfold list_sum in *. cbn [fold_right]. rewrite IH1. split.
    + rewrite length_firstn, length_skipn. lia.
    + constructor; [|exact IH2]. rewrite length_firstn. cbn [List.length]. lia.
Qed.

(** X20. [stream_array] loses nothing and repeats nothing: when it ends
    without an exception and [chunk_size] is positive, the chunks hold
    between 1 and [chunk_size] items each and as many items in total as the
    source. An exception can only come from [select_array] on the first
    window, before anything is yielded; the caller gets it as it is, except
    a [StopIteration], which it gets as [RuntimeError]: the stream never
    ends in [StopIteration] itself. *)
Theorem stream_array_keeps_every_item :
  forall (iterable : list value) (chunk_size : Z) (o : options),
    match stream_array iterable chunk_size o with
    | (chunks, Some e) =>
        chunks = []
        /\ e <> StopIteration
        /\ (select_array (firstn (Z.to_nat chunk_size) iterable) o = Raise e
            \/ (e = RuntimeError
                /\ select_array (firstn (Z.to_nat chunk_size) iterable) o
                   = Raise StopIteration))
    | (chunks, None) =>
        if 0 <? chunk_size
        then list_sum (map output_length chunks) = List.length iterable
             /\ Forall (fun c => 0 < Z.of_nat (output_length c) <= chunk_size) chunks
        else chunks = []
    end.
Proof.
  intros iterable chunk_size o. unfold stream_array.
  rewrite pull_firstn_skipn.
  destruct (Z.ltb_spec 0 chunk_size) as [Hpos|Hneg].
  2:{ replace (Z.to_nat chunk_size) with O by lia. reflexivity. }
  set (n := Z.to_nat chunk_size).
  assert (Hn : (0 < n)%nat) by (unfold n; lia).
  destruct (firstn n iterable) as [|x xs] eqn:Ef.
  { destruct iterable; [split; [reflexivity|constructor]|].
    destruct n; [lia|discriminate]. }
  destruct (select_array (x :: xs) o) as [first|e] eqn:Es.
  2:{ destruct e; cbn [raised_by_generator];
        (split; [reflexivity|split; [discriminate|]]);
        solve [left; reflexivity | right; split; reflexivity]. }
  replace chunk_size with (Z.of_nat n) by (unfold n; lia).
  fold (committed first).
  rewrite (stream_rest_windows _ _ Hn _ []) by exact Hn. cbn [app].
  destruct (windows_lengths n Hn (List.length (skipn n iterable)) (skipn n iterable)
              (le_n _)) as [Hsum Hall].
  split.
  - cbn [map]. unfold list_sum in *. cbn [fold_right]. rewrite map_map.
    rewrite (map_ext _ (@List.length value) (chunk_for_length (committed first))), Hsum.
    rewrite (select_array_output_length _ _ _ Es), <- Ef.
    rewrite <- (firstn_skipn n iterable) at 3. rewrite length_app. reflexivity.
  - constructor.
    + rewrite (select_array_output_length _ _ _ Es), <- Ef, length_firstn.
      assert (List.length (firstn n iterable) <> O) by (rewrite Ef; discriminate).
      rewrite length_firstn in *. lia.
    + apply Forall_map. apply (Forall_impl _ (P := fun w => (0 < List.length w <= n)%nat));
        [|exact Hall].
      intros w Hw. rewrite chunk_for_length. lia.
Qed.

(** X21. When [chunk_size] is at least the length of a non-empty source,
    [stream_array] yields a single chunk, the result of [select_array] on
    the whole source. When [select_array] raises, nothing is yielded and the
    caller gets [RuntimeError] for a [StopIteration] and the exception of
    [select_array] for every other one. *)
Theorem stream_array_of_a_single_window :
  forall (iterable : list value) (chunk_size : Z) (o : options),
    iterable <> [] ->
    Z.of_nat (List.length iterable) <= chunk_size ->
    stream_array iterable chunk_size o
    = match select_array iterable o with
      | Ret out => ([out], None)
      | Raise StopIteration => ([], Some RuntimeError)
      | Raise e => ([], Some e)
      end.
Proof.
  intros iterable chunk_size o Hne Hlen. unfold stream_array.
  rewrite pull_firstn_skipn, firstn_all2, skipn_all2 by lia.
  destruct iterable as [|x xs]; [congruence|].
  destruct (select_array (x :: xs) o) as [out|e]; [reflexivity|].
  destruct e; reflexivity.
Qed.

Lemma stream_array_of_a_single_window_witness :
  select_array [VInt 1; VInt 2; VInt 3] (with_no_float default_options true)
  = Raise StopIteration
  /\ stream_array [VInt 1; VInt 2; VInt 3] 5 (with_no_float default_options true)
     = ([], Some RuntimeError).
Proof.
  split; [vm_compute; reflexivity|].
  rewrite (stream_array_of_a_single_window
             [VInt 1; VInt 2; VInt 3] 5 (with_no_float default_options true)).
  - vm_compute. reflexivity.
  - discriminate.
  - cbn. lia.
Defined.

(** ** [_chunks] *)

Lemma chunks_loop_concat {A : Type} (size : Z) (it : list A) :
  forall buf : list A,
    List.concat (chunks_loop size buf it) = (buf ++ it)%list
    /\ Forall (fun c => c <> []) (chunks_loop size buf it).
Proof.
  induction it as [|v it IH]; intros buf; cbn [chunks_loop].
  - destruct buf as [|b buf]; [split; [reflexivity|constructor]|].
    split; [cbn; rewrite !app_nil_r; reflexivity|].
    constructor; [discriminate|constructor].
  - destruct (Z.of_nat (List.length (buf ++ [v])) >=? size).
    + destruct (IH []) as [IH1 IH2]. split.
      * cbn [List.concat]. rewrite IH1, <- app_assoc. reflexivity.
      * constructor; [destruct buf; discriminate|exact IH2].
    + destruct (IH (buf ++ [v])%list) as [IH1 IH2]. split; [|exact IH2].
      rewrite IH1, <- app_assoc. reflexivity.
Qed.

(** X22. The chunks of [_chunks], put end to end, are the input, in order,
    and none of them is empty, whatever [size] is. *)
Theorem chunks_concatenate_to_the_input :
  forall (A : Type) (it : list A) (size : Z),
    List.concat (_chunks it size) = it /\ Forall (fun c => c <> []) (_chunks it size).
Proof.
  intros A it size. exact (chunks_loop_concat size it []).
Qed.

Lemma chunks_loop_sizes {A : Type} (size : Z) (it : list A) :
  0 < size ->
  forall (buf : list A) (pre : list (list A)) (c : list A) (post : list (list A)),
    Z.of_nat (List.length buf) < size ->
    chunks_loop size buf it = (pre ++ c :: post)%list ->
    Z.of_nat (List.length c) <= size
    /\ (post <> [] -> Z.of_nat (List.length c) = size).
Proof.
  intros Hsize. induction it as [|v it IH]; intros buf pre c post Hbuf; cbn [chunks_loop].
  - destruct buf as [|b buf]; [intros H; destruct pre; discriminate|].
    destruct pre as [|x pre]; intros H; inversion H; subst.
    + split; [lia|congruence].
    + destruct pre; discriminate.
  - destruct (Z.of_nat (List.length (buf ++ [v])) >=? size) eqn:E.
    + rewrite Z.geb_leb in E. apply Z.leb_le in E.
      destruct pre as [|x pre]; intros H; inversion H; subst.
      * rewrite length_app in *. cbn [List.length] in *. lia.
      * apply (IH [] pre c post); [cbn; lia|assumption].
    + rewrite Z.geb_leb in E. apply Z.leb_gt in E.
      apply (IH (buf ++ [v])%list); exact E.
Qed.

(** X23. For a positive [size] no chunk of [_chunks] has more than [size]
    items, and every chunk but the last has exactly [size]. *)
Theorem chunks_are_full_except_the_last :
  forall (A : Type) (it : list A) (size : Z)
         (pre : list (list A)) (c : list A) (post : list (list A)),
    0 < size ->
    _chunks it size = (pre ++ c :: post)%list ->
    Z.of_nat (List.length c) <= size
    /\ (post <> [] -> Z.of_nat (List.length c) = size).
Proof.
  intros A it size pre c post Hsize H.
  apply (chunks_loop_sizes size it Hsize [] pre c post); [cbn; lia|exact H].
Qed.

Lemma chunks_are_full_except_the_last_witness :
  Z.of_nat (List.length [1; 2]%nat) <= 2
  /\ ([[3]%nat] <> [] -> Z.of_nat (List.length [1; 2]%nat) = 2).
Proof.
  apply (chunks_are_full_except_the_last nat [1; 2; 3]%nat 2 [] [1; 2]%nat [[3]%nat]).
  - lia.
  - reflexivity.
Defined.

(** X24. For a [size] of zero or less, [_chunks] yields every item as a
    chunk of its own. *)
Theorem chunks_of_nonpositive_size_are_singletons :
  forall (A : Type) (it : list A) (size : Z),
    size <= 0 -> _chunks it size = map (fun v => [v]) it.
Proof.
  intros A it size Hsize. unfold _chunks.
  induction it as [|v it IH]; [reflexivity|].
  cbn [chunks_loop app List.length map].
  replace (Z.of_nat 1 >=? size) with true; [rewrite IH; reflexivity|].
  symmetry. rewrite Z.geb_leb. apply Z.leb_le. lia.
Qed.

Lemma chunks_of_nonpositive_size_are_singletons_witness :
  _chunks [VInt 1; VInt 2] (-3) = map (fun v => [v]) [VInt 1; VInt 2].
Proof.
  apply (chunks_of_nonpositive_size_are_singletons value [VInt 1; VInt 2] (-3)). lia.
Defined.

(** The loop of [stream_array] cuts its source as [_chunks] does. *)
Lemma stream_rest_chunks (code : option string) (chunk_size : Z) (it : list value) :
  forall buf : list value,
    stream_rest code chunk_size buf it
    = (map (chunk_for code) (chunks_loop chunk_size buf it), None).
Proof.
  induction it as [|item it IH]; intros buf; cbn [stream_rest chunks_loop].
  - destruct buf; [reflexivity|]. rewrite emit_chunk_for. reflexivity.
  - destruct (Z.of_nat (List.length (buf ++ [item])) >=? chunk_size).
    + rewrite emit_chunk_for, IH. reflexivity.
    + apply IH.
Qed.

Lemma chunks_loop_first {A : Type} (n : nat) (it : list A) :
  (0 < n)%nat ->
  forall buf : list A,
    (List.length buf < n)%nat ->
    (buf ++ it)%list <> [] ->
    chunks_loop (Z.of_nat n) buf it
    = firstn n (buf ++ it) :: chunks_loop (Z.of_nat n) [] (skipn n (buf ++ it)).
Proof.
  intros Hn. induction it as [|v it IH]; intros buf Hbuf Hne; cbn [chunks_loop].
  - rewrite app_nil_r in *. destruct buf as [|b buf]; [congruence|].
    rewrite firstn_all2, skipn_all2 by lia. reflexivity.
  - replace (buf ++ v :: it)%list with ((buf ++ [v]) ++ it)%list
      by (rewrite <- app_assoc; reflexivity).
    destruct (Z.of_nat (List.length (buf ++ [v])) >=? Z.of_nat n) eqn:E.
    + rewrite Z.geb_leb in E. apply Z.leb_le in E.
      assert (Hlen : List.length (buf ++ [v]) = n)
        by (rewrite length_app in *; cbn [List.length] in *; lia).
      rewrite firstn_app, skipn_app, Hlen, Nat.sub_diag, firstn_O, skipn_O, app_nil_r.
      rewrite <- Hlen, firstn_all, skipn_all. reflexivity.
    + rewrite Z.geb_leb in E. apply Z.leb_gt in E.
      apply IH; [lia|destruct buf; discriminate].
Qed.

(** X25. For a positive [chunk_size], [stream_array] works on the chunks of
    [_chunks]: [select_array] on the first chunk, then every further chunk
    checked against the code the first one committed to. When
    [select_array] raises on the first chunk nothing is yielded, and the
    caller gets that exception, a [StopIteration] as [RuntimeError]. *)
Theorem stream_array_works_on_the_chunks :
  forall (iterable : list value) (chunk_size : Z) (o : options),
    0 < chunk_size ->
    stream_array iterable chunk_size o
    = match _chunks iterable chunk_size with
      | [] => ([], None)
      | w :: ws =>
          match select_array w o with
          | Raise StopIteration => ([], Some RuntimeError)
          | Raise e => ([], Some e)
          | Ret first => (first :: map (chunk_for (committed first)) ws, None)
          end
      end.
Proof.
  intros iterable chunk_size o Hpos. unfold stream_array, _chunks.
  rewrite pull_firstn_skipn.
  set (n := Z.to_nat chunk_size).
  assert (Hn : (0 < n)%nat) by (unfold n; lia).
  replace chunk_size with (Z.of_nat n) by (unfold n; lia).
  destruct iterable as [|x xs]; [destruct n; reflexivity|].
  rewrite (chunks_loop_first n (x :: xs) Hn []) by (exact Hn || discriminate).
  cbn [app].
  destruct (firstn n (x :: xs)) as [|y ys] eqn:Ef; [destruct n; [lia|discriminate]|].
  destruct (select_array (y :: ys) o) as [first|e]; [|destruct e; reflexivity].
  fold (committed first). rewrite stream_rest_chunks. reflexivity.
Qed.

Lemma stream_array_works_on_the_chunks_witness :
  stream_array [VInt 1; VInt 2; VInt 300; VInt 4; VInt 5] 2 default_options
  = match _chunks [VInt 1; VInt 2; VInt 300; VInt 4; VInt 5] 2 with
    | [] => ([], None)
    | w :: ws =>
        match select_array w default_options with
        | Raise StopIteration => ([], Some RuntimeError)
        | Raise e => ([], Some e)
        | Ret first => (first :: map (chunk_for (committed first)) ws, None)
        end
    end.
Proof.
  apply (stream_array_works_on_the_chunks
           [VInt 1; VInt 2; VInt 300; VInt 4; VInt 5] 2 default_options).
  lia.
Defined.

(** * The NumPy bridge *)

(** Every code of the catalog is a key of the dictionary of
    [_typecode_to_numpy_dtype], with a dtype of the same width and kind. *)
Lemma catalog_code_has_a_dtype (LibError : Type) (code : string) :
  Catalog.position code <> None ->
  exists dt enc,
    In enc Catalog.catalog
    /\ Catalog.code enc = code
    /\ Numpy.itemsize dt = Some (Catalog.width enc)
    /\ Numpy.kind dt = Some (Catalog.sort enc)
    /\ Numpy._typecode_to_numpy_dtype LibError code = Numpy.Done dt.
Proof.
  intros Hc. apply position_some_iff in Hc. cbn in Hc.
  destruct Hc as [Hc|Hc];
    [subst code;
     exists Numpy.int8, {| Catalog.code := "b"; Catalog.width := 1; Catalog.sort := Catalog.Signed |};
     cbn; tauto|].
  destruct Hc as [Hc|Hc];
    [subst code;
     exists Numpy.uint8, {| Catalog.code := "B"; Catalog.width := 1; Catalog.sort := Catalog.Unsigned |};
     cbn; tauto|].
  destruct Hc as [Hc|Hc];
    [subst code;
     exists Numpy.int16, {| Catalog.code := "h"; Catalog.width := 2; Catalog.sort := Catalog.Signed |};
     cbn; tauto|].
  destruct Hc as [Hc|Hc];
    [subst code;
     exists Numpy.uint16, {| Catalog.code := "H"; Catalog.width := 2; Catalog.sort := Catalog.Unsigned |};
     cbn; tauto|].
  destruct Hc as [Hc|Hc];
    [subst code;
     exists Numpy.int32, {| Catalog.code := "i"; Catalog.width := 4; Catalog.sort := Catalog.Signed |};
     cbn; tauto|].
  destruct Hc as [Hc|Hc];
    [subst code;
     exists Numpy.uint32, {| Catalog.code := "I"; Catalog.width := 4; Catalog.sort := Catalog.Unsigned |};
     cbn; tauto|].
  destruct Hc as [Hc|Hc];
    [subst code;
     exists Numpy.int64, {| Catalog.code := "q"; Catalog.width := 8; Catalog.sort := Catalog.Signed |};
     cbn; tauto|].
  destruct Hc as [Hc|Hc];
    [subst code;
     exists Numpy.uint64, {| Catalog.code := "Q"; Catalog.width := 8; Catalog.sort := Catalog.Unsigned |};
     cbn; tauto|].
  destruct Hc as [Hc|Hc];
    [subst code;
     exists Numpy.float32, {| Catalog.code := "f"; Catalog.width := 4; Catalog.sort := Catalog.Floating |};
     cbn; tauto|].
  destruct Hc as [Hc|Hc];
    [subst code;
     exists Numpy.float64, {| Catalog.code := "d"; Catalog.width := 8; Catalog.sort := Catalog.Floating |};
     cbn; tauto|].
  contradiction.
Qed.

Section NumpyBridge.

Variables (ndarray LibError : Type).
Variable frombuffer : string -> list value -> Numpy.dtype -> Numpy.outcome LibError ndarray.
Variable array_object : list value -> Numpy.outcome LibError ndarray.
Variable asarray : list value -> Numpy.dtype -> Numpy.outcome LibError ndarray.

(** X26. With [dtype="min"] and NumPy present, [to_numpy] raises what
    [select_array] raises, hands a list result to [np.array(dtype=object)],
    and hands an array to [np.frombuffer] with a dtype that has the byte
    width and the kind of the array's code in the catalog: the lookup of
    the dtype never fails. *)
Theorem to_numpy_min_follows_select_array :
  forall (iterable : list value) (copy : bool) (policy : options),
    match select_array iterable policy with
    | Raise e =>
        Numpy.to_numpy ndarray LibError frombuffer array_object asarray
          true iterable "min" copy policy = Numpy.Failed (Numpy.Py e)
    | Ret (OList items) =>
        Numpy.to_numpy ndarray LibError frombuffer array_object asarray
          true iterable "min" copy policy = array_object items
    | Ret (OArray code items) =>
        exists dt enc,
          In enc Catalog.catalog
          /\ Catalog.code enc = code
          /\ Numpy.itemsize dt = Some (Catalog.width enc)
          /\ Numpy.kind dt = Some (Catalog.sort enc)
          /\ Numpy.to_numpy ndarray LibError frombuffer array_object asarray
               true iterable "min" copy policy = frombuffer code items dt
    end.
Proof.
  intros iterable copy policy. unfold Numpy.to_numpy. cbn [negb String.eqb Ascii.eqb Bool.eqb].
  destruct (select_array iterable policy) as [[code items|items]|e] eqn:E; try reflexivity.
  destruct (candidate_position _ _ _ _ _ _ (select_array_code_is_a_candidate _ _ _ _ E))
    as (p & Hp & _).
  assert (Hc : Catalog.position code <> None) by congruence.
  destruct (catalog_code_has_a_dtype LibError code Hc) as (dt & enc & H1 & H2 & H3 & H4 & H5).
  exists dt, enc. rewrite H5. auto.
Qed.

End NumpyBridge.
